(** * slide3_data_overview.py: the dataset-overview report

    A shallow embedding of the script [slide3_data_overview.py]: the table it
    loads with pandas, the derived [panic_mode] column, the arguments it hands
    to the plotting calls of each panel, and the lines it prints.

    - A pandas [DataFrame] is a finite map from column names to columns, with
      the length of its index.  A column carries one of the dtypes [read_csv]
      produces: [bool], [int64], [float64] (missing cells are NaN) and
      [object] (a string, or missing).
    - Exceptions are a [result] type; [print] appends to a list of lines.
    - [float64] arithmetic is the kernel's binary64 ([PrimFloat]); integers
      are [Z] (row counts never come near the int64 bounds).
    - [value_counts] orders by count, largest first; pandas leaves the order
      of equal counts open.  The function below keeps the order of first
      appearance; what is proved of the top countries holds for every order
      of equal counts.
    - A panel is the data its plotting calls receive (wedges, bars, labels,
      boxes, texts), not pixels.  The wedge sizes of [pie] are float32, as
      the library computes them; a box plot of a series that is not numeric
      raises.
    - What the script leaves to the libraries and nothing below depends on
      (parsing the CSV file, rasterising and writing the figure, [repr] of a
      float) is a parameter of the section [Script]. *)

From Stdlib Require Import ZArith QArith Qcanon Qround Qpower Lqa.
From Stdlib Require Import Floats Uint63 Ascii String.
From stdpp Require Import gmap strings list fin_maps pretty numbers sorting.

Open Scope string_scope.
Open Scope Z_scope.

(** ** Exceptions *)

Inductive exn :=
| KeyError (key : string)
| TypeError
| ValueError
| OSError.

Inductive result (A : Type) :=
| Ok (a : A)
| Raise (e : exn).
Arguments Ok {A} a.
Arguments Raise {A} e.

Global Instance result_ret : MRet result := λ A a, Ok a.
Global Instance result_bind : MBind result := λ A B f m,
  match m with Ok a => f a | Raise e => Raise e end.

(** ** Columns and tables *)

Inductive column :=
| BoolCol (xs : list bool)
| IntCol (xs : list Z)
| FloatCol (xs : list float)
| ObjCol (xs : list (option string)).

(** One entry of a column. *)
Inductive cell :=
| CBool (b : bool)
| CInt (z : Z)
| CFloat (f : float)
| CStr (s : string)
| CNone.

Definition obj_cell (o : option string) : cell :=
  match o with Some s => CStr s | None => CNone end.

Definition cells (c : column) : list cell :=
  match c with
  | BoolCol xs => CBool <$> xs
  | IntCol xs => CInt <$> xs
  | FloatCol xs => CFloat <$> xs
  | ObjCol xs => obj_cell <$> xs
  end.

Definition col_len (c : column) : nat := length (cells c).

Record DataFrame := mkDataFrame {
  index_len : nat;                  (* len(df) *)
  data : gmap string column         (* df.columns and their values *)
}.

(** Every column of a [DataFrame] is as long as its index. *)
Definition wf (df : DataFrame) : Prop :=
  ∀ k c, data df !! k = Some c → col_len c = index_len df.

Definition wfb (df : DataFrame) : bool :=
  forallb (λ kc, Nat.eqb (col_len kc.2) (index_len df)) (map_to_list (data df)).

(** [df[key]] *)
Definition getitem (df : DataFrame) (key : string) : result column :=
  match data df !! key with
  | Some c => Ok c
  | None => Raise (KeyError key)
  end.

(** [df[key] = c] *)
Definition setitem (df : DataFrame) (key : string) (c : column) : DataFrame :=
  mkDataFrame (index_len df) (<[key := c]> (data df)).

(** The cell of column [key] in row [i]. *)
Definition cell_at (df : DataFrame) (key : string) (i : nat) : option cell :=
  c ← data df !! key; cells c !! i.

(** ** Elementwise operations on columns *)

(** An integer as a float64 (exact below 2^53). *)
Definition float_of_Z (z : Z) : float :=
  if z <? 0 then PrimFloat.opp (PrimFloat.of_uint63 (Uint63.of_Z (- z)))
  else PrimFloat.of_uint63 (Uint63.of_Z z).

(** [x == k] for one cell: a string or a missing cell equals no number. *)
Definition cell_eqb (x : cell) (k : Z) : bool :=
  match x with
  | CBool b => Z.b2z b =? k
  | CInt z => z =? k
  | CFloat f => PrimFloat.eqb f (float_of_Z k)
  | CStr _ | CNone => false
  end.

(** [x <= k] for one cell: NaN is below nothing; a string cannot be compared
    with a number. *)
Definition cell_leb (x : cell) (k : Z) : result bool :=
  match x with
  | CBool b => Ok (Z.b2z b <=? k)
  | CInt z => Ok (z <=? k)
  | CFloat f => Ok (PrimFloat.leb f (float_of_Z k))
  | CStr _ => Raise TypeError
  | CNone => Ok false
  end.

(** [series == k] *)
Definition eq_scalar (c : column) (k : Z) : list bool :=
  (λ x, cell_eqb x k) <$> cells c.

(** [series <= k] *)
Definition le_scalar (c : column) (k : Z) : result (list bool) :=
  mapM (M := result) (λ x, cell_leb x k) (cells c).

(** [a | b] and [a & b] on boolean series of one table. *)
Definition series_or (a b : list bool) : list bool := zip_with orb a b.
Definition series_and (a b : list bool) : list bool := zip_with andb a b.

(** [series.astype(int)]; the script applies it to the boolean column it has
    just stored, other dtypes do not reach it. *)
Definition astype_int (c : column) : result column :=
  match c with
  | BoolCol xs => Ok (IntCol (Z.b2z <$> xs))
  | IntCol xs => Ok (IntCol xs)
  | FloatCol _ | ObjCol _ => Raise TypeError
  end.

(** ** Lines 14-17: the derived column *)

Definition derive_panic_mode (df : DataFrame) : result DataFrame :=
  evac ← getitem df "avalon_evac_recommendation";
  shut ← getitem df "avalon_shutdown_recommendation";
  risk ← getitem df "true_risk_level";
  low ← le_scalar risk 2;
  let df := setitem df "panic_mode"
              (BoolCol (series_and (series_or (eq_scalar evac 1) (eq_scalar shut 1)) low)) in
  flag ← getitem df "panic_mode";
  ints ← astype_int flag;
  Ok (setitem df "panic_mode" ints).

(** ** Reductions and counts of a column *)

(** A missing cell: NaN in a float column, an empty cell in an object column. *)
Definition isna (x : cell) : bool :=
  match x with
  | CFloat f => PrimFloat.is_nan f
  | CNone => true
  | _ => false
  end.

Definition notna (x : cell) : bool := negb (isna x).

(** Equality of two values of one column, as the hash table of
    [value_counts] and [nunique] sees them. *)
Definition key_eqb (a b : cell) : bool :=
  match a, b with
  | CBool x, CBool y => Bool.eqb x y
  | CInt x, CInt y => x =? y
  | CFloat x, CFloat y => PrimFloat.eqb x y
  | CStr x, CStr y => String.eqb x y
  | _, _ => false
  end.

(** The order of two values of one column. *)
Definition key_ltb (a b : cell) : bool :=
  match a, b with
  | CBool x, CBool y => negb x && y
  | CInt x, CInt y => x <? y
  | CFloat x, CFloat y => PrimFloat.ltb x y
  | CStr x, CStr y => String.ltb x y
  | _, _ => false
  end.

(** A counted series: the index (the distinct values) with the count of each. *)
Abbreviation counts := (list (cell * nat)).

(** One more occurrence of [k]. *)
Fixpoint bump (k : cell) (acc : counts) : counts :=
  match acc with
  | [] => [(k, 1%nat)]
  | (k', n) :: acc' =>
      if key_eqb k' k then (k', S n) :: acc' else (k', n) :: bump k acc'
  end.

(** The distinct values in order of first appearance, each with its number
    of occurrences. *)
Definition tally (xs : list cell) : counts :=
  foldl (λ acc x, bump x acc) [] xs.

(** Sorting by count, largest first.  pandas sorts with a quicksort that is
    not stable, so the order it gives entries of equal count is open; this
    sort is one such order (it keeps them as they were). *)
Fixpoint insert_desc (e : cell * nat) (l : counts) : counts :=
  match l with
  | [] => [e]
  | e' :: l' =>
      if (e'.2 <=? e.2)%nat then e :: l else e' :: insert_desc e l'
  end.

Definition sort_desc (l : counts) : counts := foldr insert_desc [] l.

(** [series.value_counts()]: missing cells are dropped, the most frequent
    value comes first. *)
Definition value_counts (c : column) : counts :=
  sort_desc (tally (filter (λ x, notna x = true) (cells c))).

(** [counts.sort_index()] *)
Fixpoint insert_key (e : cell * nat) (l : counts) : counts :=
  match l with
  | [] => [e]
  | e' :: l' =>
      if key_ltb e.1 e'.1 then e :: l else e' :: insert_key e l'
  end.

Definition sort_index (l : counts) : counts := foldr insert_key [] l.

(** [counts.head(n)] *)
Definition head (n : nat) (l : counts) : counts := take n l.

(** [counts.index] and [counts.values] *)
Definition index (l : counts) : list cell := fst <$> l.
Definition values (l : counts) : list nat := snd <$> l.

(** [series.nunique()] *)
Definition nunique (c : column) : nat :=
  length (tally (filter (λ x, notna x = true) (cells c))).

(** The least element for the order [lt]; NaN for an empty series. *)
Definition extremum (lt : cell → cell → bool) (xs : list cell) : cell :=
  match xs with
  | [] => CFloat nan
  | x :: xs' => foldl (λ m y, if lt y m then y else m) x xs'
  end.

(** An object column that holds both strings and missing cells cannot be
    ordered. *)
Definition comparable (c : column) : bool :=
  match c with
  | ObjCol xs => negb (existsb (λ o, bool_decide (o = None)) xs
                       && existsb (λ o, bool_decide (o ≠ None)) xs)
  | _ => true
  end.

(** [series.min()] and [series.max()]: missing cells are skipped. *)
Definition series_min (c : column) : result cell :=
  if comparable c
  then Ok (extremum key_ltb (filter (λ x, notna x = true) (cells c)))
  else Raise TypeError.

Definition series_max (c : column) : result cell :=
  if comparable c
  then Ok (extremum (λ a b, key_ltb b a) (filter (λ x, notna x = true) (cells c)))
  else Raise TypeError.

(** [series.sum()]: missing cells are skipped; the script sums the int64
    column [panic_mode] only. *)
Definition series_sum (c : column) : result cell :=
  match c with
  | BoolCol xs => Ok (CInt (foldr Z.add 0 (Z.b2z <$> xs)))
  | IntCol xs => Ok (CInt (foldr Z.add 0 xs))
  | FloatCol xs =>
      Ok (CFloat (foldl PrimFloat.add 0%float
                    (filter (λ f, PrimFloat.is_nan f = false) xs)))
  | ObjCol _ => Raise TypeError
  end.

(** ** Scalar arithmetic of the printed percentages *)

Definition to_float (x : cell) : result float :=
  match x with
  | CBool b => Ok (float_of_Z (Z.b2z b))
  | CInt z => Ok (float_of_Z z)
  | CFloat f => Ok f
  | CStr _ | CNone => Raise TypeError
  end.

(** [n - x] for an integer [n] *)
Definition rsub (n : Z) (x : cell) : result cell :=
  match x with
  | CBool b => Ok (CInt (n - Z.b2z b))
  | CInt z => Ok (CInt (n - z))
  | CFloat f => Ok (CFloat (PrimFloat.sub (float_of_Z n) f))
  | CStr _ | CNone => Raise TypeError
  end.

(** [x / n * 100] in float64; a numpy division by zero gives inf or NaN, it
    does not raise. *)
Definition percent_of (x : float) (n : Z) : float :=
  PrimFloat.mul (PrimFloat.div x (float_of_Z n)) 100%float.

Definition percent (x : cell) (n : Z) : result float :=
  f ← to_float x; Ok (percent_of f n).

(** ** String formatting *)

Definition nl : string := String "010" "".

(** [str(z)] of an integer. *)
Definition str_int (z : Z) : string := pretty z.

(** A comma before every group of three digits, on the digits in reverse;
    [k] digits remain in the current group. *)
Fixpoint commas (k : nat) (rev_digits : list ascii) : list ascii :=
  match rev_digits with
  | [] => []
  | d :: ds =>
      match k with
      | O => "," %char :: d :: commas 2 ds
      | S k' => d :: commas k' ds
      end
  end.

(** [f"{n:,}"] for an integer [n >= 0]. *)
Definition format_thousands (n : Z) : string :=
  string_of_list_ascii
    (rev (commas 3 (rev (list_ascii_of_string (str_int n))))).

(** [num / den] rounded to the nearest integer, a tie to the even one. *)
Definition round_half_even (num den : Z) : Z :=
  let q := num / den in
  let r := num mod den in
  if 2 * r <? den then q
  else if 2 * r =? den then (if Z.even q then q else q + 1)
  else q + 1.

(** [s] padded with zeros on the left to [d] characters. *)
Definition zfill (d : nat) (s : string) : string :=
  string_of_list_ascii (replicate (d - String.length s) "0"%char) ++ s.

(** The decimal digits of [m * 2^e] with [d] digits after the point,
    correctly rounded. *)
Definition fixed_digits (d : nat) (m e : Z) : string :=
  let scale := 10 ^ Z.of_nat d in
  let n := if 0 <=? e then m * 2 ^ e * scale
           else round_half_even (m * scale) (2 ^ (- e)) in
  str_int (n / scale) ++
  match d with
  | O => ""
  | S _ => "." ++ zfill d (str_int (n mod scale))
  end.

Definition sign_str (s : bool) : string := if s then "-" else "".

(** [f"{x:.df}"] for a float64 [x]. *)
Definition format_f (d : nat) (x : float) : string :=
  match Prim2SF x with
  | S754_nan => "nan"
  | S754_infinity s => sign_str s ++ "inf"
  | S754_zero s => sign_str s ++ fixed_digits d 0 0
  | S754_finite s m e => sign_str s ++ fixed_digits d (Z.pos m) e
  end.

(** The lines of a text. *)
Fixpoint lines (s : string) : list string :=
  match s with
  | EmptyString => [""]
  | String c s' =>
      if Ascii.eqb c "010" then "" :: lines s'
      else match lines s' with
           | [] => [String c ""]
           | l :: ls => String c l :: ls
           end
  end.

(** ** Plotting calls: what each hands to the canvas *)

(** The [i]-th colour of a colour list that is cycled through. *)
Definition cycle (colors : list string) (i : nat) : string :=
  default "" (colors !! (i mod length colors)%nat).

Record wedge := mkWedge {
  wedge_frac : Qc;
  wedge_label : string;
  wedge_color : string
}.

Definition Qc_of_nat (n : nat) : Qc := Qc_of_Z (Z.of_nat n).

(** *** float32

    [pie] does its arithmetic in numpy's float32.  A float32 is the rational
    it stands for; an operation yields the float32 nearest to the exact
    result, the even mantissa on a tie.  The exponent range is left out: the
    values here are counts below 2^63, their sums, and quotients between
    2^-64 and 1, all far from overflow and from the subnormal numbers. *)

(** The integer nearest to [x], the even one of two that are as near. *)
Definition nearest_even (x : Q) : Z :=
  let f := Qfloor x in
  match (x - inject_Z f ?= 1 # 2)%Q with
  | Lt => f
  | Gt => f + 1
  | Eq => if Z.even f then f else f + 1
  end.

(** For [0 < q], the exponent [e] with [2^e <= q < 2^(e+1)]. *)
Definition binade (q : Q) : Z :=
  let e0 := Z.log2 (Qnum q) - Z.log2 (Zpos (Qden q)) in
  if Qle_bool (2 ^ e0) q then e0 else e0 - 1.

(** For [0 < q], the nearest number with a mantissa of 24 bits. *)
Definition nearest32 (q : Q) : Q :=
  let k := binade q - 23 in
  (inject_Z (nearest_even (q / 2 ^ k)) * 2 ^ k)%Q.

Definition round32 (q : Qc) : Qc :=
  match (q ?= 0)%Qc with
  | Eq => 0%Qc
  | Gt => Q2Qc (nearest32 q)
  | Lt => (- Q2Qc (nearest32 (- q)))%Qc
  end.

(** [np.float32(n)], and [+] and [/] of float32. *)
Definition float32 (n : nat) : Qc := round32 (Qc_of_nat n).
Definition add32 (x y : Qc) : Qc := round32 (x + y).
Definition div32 (x y : Qc) : Qc := round32 (x / y).

(** [x.sum()]: numpy adds to the first element the sum of the others, which
    it gathers from zero in a plain loop when they are fewer than eight (the
    blocks it forms of longer arrays are left out: the pie of this script
    raises unless it gets two values). *)
Definition sum32 (x : list Qc) : Qc :=
  match x with
  | [] => 0%Qc
  | v :: rest => add32 v (fold_left add32 rest 0%Qc)
  end.

(** The wedge sizes of [pie]: [x = np.asarray(x, np.float32)], [sx = x.sum()],
    [x = x / sx].  (A sum of zero, which gives NaN sizes, does not occur: the
    counts of [value_counts] are positive.) *)
Definition pie_fracs (x : list nat) : list Qc :=
  let x := float32 <$> x in
  let sx := sum32 x in
  (λ v, div32 v sx) <$> x.

(** [ax.pie(x, labels=labels, colors=colors)]: the labels must be as many as
    the wedges; the colours are cycled. *)
Definition pie (x : list nat) (labels colors : list string) : result (list wedge) :=
  let fracs := pie_fracs x in
  if decide (length x = length labels)
  then Ok (imap (λ i fl, mkWedge fl.1 fl.2 (cycle colors i)) (zip fracs labels))
  else Raise ValueError.

Record rect := mkRect {
  rect_pos : cell;
  rect_size : nat;
  rect_color : string
}.

(** numpy's broadcasting of two one-dimensional arrays. *)
Definition broadcast {A B} (xs : list A) (ys : list B) : result (list (A * B)) :=
  if decide (length xs = length ys) then Ok (zip xs ys)
  else match xs, ys with
       | [x], _ => Ok (zip (replicate (length ys) x) ys)
       | _, [y] => Ok (zip xs (replicate (length xs) y))
       | _, _ => Raise ValueError
       end.

(** [ax.bar(x, height, color=colors)] and [ax.barh(y, width)]: positions and
    sizes are broadcast against each other. *)
Definition bar (x : list cell) (height : list nat) (colors : list string)
  : result (list rect) :=
  xh ← broadcast x height;
  Ok (imap (λ i p, mkRect p.1 p.2 (cycle colors i)) xh).

(** A column of numbers: dtype int64 or float64. *)
Definition numeric (c : column) : bool :=
  match c with
  | IntCol _ | FloatCol _ => true
  | BoolCol _ | ObjCol _ => false
  end.

(** [ax.boxplot(data, labels=labels)]: the labels must be as many as the
    series; each box is drawn from the mean and the quartiles of its series,
    which a series that is not numeric does not have: the call raises.
    Missing cells (NaN) in a numeric series do not raise. *)
Definition boxplot (data : list column) (labels : list string)
  : result (list (string * column)) :=
  if decide (length labels = length data)
  then if forallb numeric data then Ok (zip labels data) else Raise TypeError
  else Raise ValueError.

(** [ax.text(x, y, s)] *)
Record text := mkText {
  text_x : cell;
  text_y : cell;
  text_str : string
}.

(** [range(n)] *)
Definition range (n : nat) : list cell := (λ i, CInt (Z.of_nat i)) <$> seq 0 n.

(** [enumerate(xs)] *)
Definition enumerate {A} (xs : list A) : list (nat * A) := zip (seq 0 (length xs)) xs.

Record pie_panel := mkPiePanel {
  pie_wedges : list wedge;
  pie_title : string
}.

Record bar_panel := mkBarPanel {
  bar_rects : list rect;
  bar_texts : list text
}.

Record barh_panel := mkBarhPanel {
  barh_rects : list rect;
  barh_yticks : list cell;
  barh_yticklabels : list cell;
  barh_inverted : bool;               (* ax.invert_yaxis() *)
  barh_texts : list text
}.

(** The bar drawn highest: the y axis grows upwards unless it is inverted. *)
Definition above (inverted : bool) (a b : rect) : bool :=
  if inverted then key_ltb (rect_pos a) (rect_pos b)
  else key_ltb (rect_pos b) (rect_pos a).

Definition topmost (p : barh_panel) : option rect :=
  match barh_rects p with
  | [] => None
  | r :: rs => Some (foldl (λ m x, if above (barh_inverted p) x m then x else m) r rs)
  end.

Definition CNat (n : nat) : cell := CInt (Z.of_nat n).

Record figure := mkFigure {
  suptitle : string;
  summary_box : string;                           (* panel 1 *)
  panic_pie : pie_panel;                          (* panel 2 *)
  risk_bars : bar_panel;                          (* panel 3 *)
  incident_bars : bar_panel;                      (* panel 4 *)
  pressure_boxes : list (string * column * string); (* panel 5 *)
  temporal_line : counts;                         (* panel 6 *)
  country_bars : barh_panel;                      (* panel 7 *)
  footer : string                                 (* panel 8 *)
}.

(** ** The script *)

Section Script.

(** The world outside the process: the file system, fonts, the clock. *)
Context {World Image : Type}.

(** [pd.read_csv(path)] *)
Variable read_csv : World → string → result DataFrame.
(** [plt.savefig(path, ...)]: rasterises the figure and writes the file. *)
Variable savefig : World → figure → string → result Image.
(** [repr] of a float64 (the shortest decimal that reads back). *)
Variable repr_float : float → string.

(** [f"{x}"] of a scalar. *)
Definition py_str (x : cell) : string :=
  match x with
  | CBool b => if b then "True" else "False"
  | CInt z => str_int z
  | CFloat f => repr_float f
  | CStr s => s
  | CNone => "nan"
  end.

(** Lines 30-38 *)
Definition info_text (df : DataFrame) : result string :=
  country ← getitem df "country";
  year ← getitem df "year";
  lo ← series_min year;
  hi ← series_max year;
  Ok (nl ++ "DATASET SUMMARY" ++ nl
      ++ "━━━━━━━━━━━━━━━━━" ++ nl
      ++ "Records: " ++ format_thousands (Z.of_nat (index_len df)) ++ nl
      ++ "Features: " ++ str_int (Z.of_nat (size (data df))) ++ nl
      ++ "Countries: " ++ str_int (Z.of_nat (nunique country)) ++ nl
      ++ "Time Span: " ++ py_str lo ++ "–" ++ py_str hi ++ nl
      ++ "Missing Values: 0" ++ nl).

(** Lines 44-49 *)
Definition panic_counts (df : DataFrame) : result counts :=
  c ← getitem df "panic_mode"; Ok (value_counts c).

Definition colors : list string := ["#2ecc71"; "#e74c3c"].

Definition panel2 (df : DataFrame) : result pie_panel :=
  panic_counts ← panic_counts df;
  wedges ← pie (values panic_counts) ["Normal"; "Panic Mode"] colors;
  Ok (mkPiePanel wedges ("Panic Mode Distribution" ++ nl ++ "(n=180 panic cases)")).

(** Lines 53-60 *)
Definition risk_counts (df : DataFrame) : result counts :=
  c ← getitem df "true_risk_level"; Ok (sort_index (value_counts c)).

Definition panel3 (df : DataFrame) : result bar_panel :=
  risk_counts ← risk_counts df;
  bars ← bar (index risk_counts) (values risk_counts)
             ["#3498db"; "#f39c12"; "#e74c3c"];
  Ok (mkBarPanel bars
        ((λ iv, mkText iv.1 (CNat (iv.2 + 50)) (str_int (Z.of_nat iv.2)))
           <$> risk_counts)).

(** Lines 64-70 *)
Definition incident_counts (df : DataFrame) : result counts :=
  c ← getitem df "incident_occurred"; Ok (value_counts c).

Definition incident_label (df : DataFrame) (v : nat) : string :=
  str_int (Z.of_nat v) ++ nl ++ "("
  ++ format_f 1 (percent_of (float_of_Z (Z.of_nat v)) (Z.of_nat (index_len df)))
  ++ "%)".

Definition panel4 (df : DataFrame) : result bar_panel :=
  incident_counts ← incident_counts df;
  bars ← bar [CStr "No Incident"; CStr "Incident"] (values incident_counts) colors;
  Ok (mkBarPanel bars
        ((λ iv, mkText (CNat iv.1) (CNat (iv.2 + 50)) (incident_label df iv.2))
           <$> enumerate (values incident_counts))).

(** Lines 74-80 *)
Definition external_vars : list string :=
  ["public_anxiety_index"; "social_media_rumour_index"; "regulator_scrutiny_score"].

Definition panel5 (df : DataFrame) : result (list (string * column * string)) :=
  data_to_plot ← mapM (M := result) (getitem df) external_vars;
  bp ← boxplot data_to_plot
               ["Public Anxiety"; "Social Media Rumors"; "Regulatory Scrutiny"];
  Ok (zip bp ["#3498db"; "#9b59b6"; "#e67e22"]).

(** Lines 88-90 *)
Definition year_counts (df : DataFrame) : result counts :=
  c ← getitem df "year"; Ok (sort_index (value_counts c)).

(** Lines 98-106 *)
Definition top_countries (df : DataFrame) : result counts :=
  c ← getitem df "country"; Ok (head 10 (value_counts c)).

(** Lines 99-106, on the counts line 98 leaves. *)
Definition country_panel (top_countries : counts) : result barh_panel :=
  let n := length top_countries in
  bars ← bar (range n) (values top_countries) [];
  Ok (mkBarhPanel bars (range n) (index top_countries) true
        ((λ iv, mkText (CNat (iv.2 + 5)) (CNat iv.1) (str_int (Z.of_nat iv.2)))
           <$> enumerate (values top_countries))).

Definition panel7 (df : DataFrame) : result barh_panel :=
  top_countries ← top_countries df;
  country_panel top_countries.

(** Lines 20-111: the figure, panel after panel. *)
Definition draw (df : DataFrame) : result figure :=
  info_text ← info_text df;
  p2 ← panel2 df;
  p3 ← panel3 df;
  p4 ← panel4 df;
  p5 ← panel5 df;
  p6 ← year_counts df;
  p7 ← panel7 df;
  Ok (mkFigure "Dataset Overview: Avalon Nuclear Safety Monitoring System"
        info_text p2 p3 p4 p5 p6 p7
        "panic_mode = 1 when Avalon recommends evacuation/shutdown despite true_risk_level ≤ 2").

(** Lines 114-120: the argument of each [print], in order. *)
Definition summary_lines (df : DataFrame) : list (result string) :=
  let n := Z.of_nat (index_len df) in
  let panic_sum := (c ← getitem df "panic_mode"; series_sum c) in
  [ Ok "✓ Visualization saved as 'slide3_data_overview.png'";
    Ok (nl ++ "Dataset Statistics:");
    Ok ("  Total records: " ++ format_thousands n);
    (s ← panic_sum; p ← percent s n;
     Ok ("  Panic mode cases: " ++ py_str s ++ " (" ++ format_f 2 p ++ "%)"));
    (s ← panic_sum; d ← rsub n s; p ← percent d n;
     Ok ("  Normal cases: " ++ py_str d ++ " (" ++ format_f 2 p ++ "%)"));
    (c ← getitem df "country";
     Ok ("  Unique countries: " ++ str_int (Z.of_nat (nunique c))));
    (c ← getitem df "reactor_type_code";
     Ok ("  Reactor types: " ++ str_int (Z.of_nat (nunique c)))) ].

(** Each [print] evaluates its argument, then writes the line; an
    exception stops the run and leaves what was written. *)
Fixpoint print_all (args : list (result string)) (stdout : list string)
  : list string * result unit :=
  match args with
  | [] => (stdout, Ok ())
  | Ok line :: args' => print_all args' (stdout ++ [line])
  | Raise e :: _ => (stdout, Raise e)
  end.

(** What a run leaves behind: the lines on standard output, and either the
    exception that ended it or the table as it stands at exit with the
    image written. *)
Definition script (w : World) : list string * result (DataFrame * Image) :=
  match
    (df ← read_csv w "avalon_nuclear.csv";
     df ← derive_panic_mode df;
     fig ← draw df;
     img ← savefig w fig "slide3_data_overview.png";
     Ok (df, img))
  with
  | Raise e => ([], Raise e)
  | Ok (df, img) =>
      let '(stdout, r) := print_all (summary_lines df) [] in
      (stdout, r ≫= λ _, Ok (df, img))
  end.

End Script.

(** ** Notions used in the statements *)

(** [x = k] and [x ≤ k] for a cell of each dtype: the integer relations on
    int64 and bool, the IEEE comparisons on float64; a string or a missing
    cell is in no such relation with a number. *)
Definition cell_eq (x : cell) (k : Z) : Prop :=
  match x with
  | CBool b => Z.b2z b = k
  | CInt z => z = k
  | CFloat f => PrimFloat.eqb f (float_of_Z k) = true
  | CStr _ | CNone => False
  end.

Definition cell_le (x : cell) (k : Z) : Prop :=
  match x with
  | CBool b => Z.b2z b ≤ k
  | CInt z => z ≤ k
  | CFloat f => PrimFloat.leb f (float_of_Z k) = true
  | CStr _ | CNone => False
  end.

(** The rule of the footer: an evacuation or a shutdown is recommended
    although the true risk level is at most 2. *)
Definition panic_rule (evac shut risk : cell) : Prop :=
  (cell_eq evac 1 ∨ cell_eq shut 1) ∧ cell_le risk 2.

(** The flags lines 14-16 compute, given the three columns they read. *)
Definition flags (evac shut : column) (low : list bool) : list bool :=
  series_and (series_or (eq_scalar evac 1) (eq_scalar shut 1)) low.

(** A list of counts that never goes up. *)
Definition descending (l : list nat) : Prop :=
  ∀ i j a b, (i ≤ j)%nat → l !! i = Some a → l !! j = Some b → (b ≤ a)%nat.

(** A cell whose hash-table equality is plain equality (not a float, not a
    missing cell). *)
Definition exact (x : cell) : Prop :=
  match x with
  | CBool _ | CInt _ | CStr _ => True
  | CFloat _ | CNone => False
  end.

(** The sum of a list of fractions. *)
Definition sum_Qc (l : list Qc) : Qc := foldr Qcplus 0%Qc l.

(** Half the gap between 1 and the next float32: the relative error of one
    rounding. *)
Definition ulp32 : Q := 1 # 16777216.

(** [y] is [x] up to one float32 rounding. *)
Definition rounds (x y : Q) : Prop :=
  ((1 - ulp32) * x <= y <= (1 + ulp32) * x)%Q.

(** [x] is no further than [eps] from [y]. *)
Definition within (eps x y : Qc) : Prop := (y - eps <= x <= y + eps)%Qc.

(** The share of the rows whose [panic_mode] is [z]. *)
Definition share (z : Z) (pm : list Z) : Qc :=
  (Qc_of_nat (length (filter (λ x, x = z) pm)) / Qc_of_nat (length pm))%Qc.

(** The number of missing cells of a table ([df.isna().sum().sum()]): what
    the line of the summary box would show if it were computed. *)
Definition missing_values (df : DataFrame) : nat :=
  sum_list ((λ kc, length (filter (λ x, isna x = true) (cells kc.2)))
              <$> map_to_list (data df)).

(** [num / den] rounded to the nearest integer, a tie upwards: with
    [round_half_even], the two usual readings of rounding an exact quotient. *)
Definition round_half_up (num den : Z) : Z := (2 * num + den) / (2 * den).

(** ** Sample tables and a sample world *)

(** Three observations, with missing cells in three columns. *)
Definition sample : DataFrame :=
  mkDataFrame 3 (list_to_map [
    ("country", ObjCol [Some "FR"; Some "US"; Some "FR"]);
    ("year", IntCol [1990; 2001; 1995]);
    ("true_risk_level", IntCol [1; 2; 3]);
    ("avalon_evac_recommendation", IntCol [1; 0; 1]);
    ("avalon_shutdown_recommendation", IntCol [0; 0; 1]);
    ("incident_occurred", IntCol [0; 0; 1]);
    ("public_anxiety_index", FloatCol [1.5%float; nan; 2%float]);
    ("social_media_rumour_index", FloatCol [0.5%float; 3%float; 2%float]);
    ("regulator_scrutiny_score", FloatCol [nan; 4%float; 2%float]);
    ("reactor_type_code", ObjCol [Some "PWR"; None; Some "BWR"])]).

(** The table [sample] after line 17. *)
Definition sample17 : DataFrame := setitem sample "panic_mode" (IntCol [1; 0; 0]).

(** A stand-in for [repr] on the sample tables. *)
Definition repr1 (f : float) : string := format_f 1 f.

(** A table with the given recommendations to evacuate and the given
    incidents, every true risk level 1 and no recommendation to shut down:
    an observation is in panic mode exactly when its [evac] is 1. *)
Definition table_of (evac incident : list Z) : DataFrame :=
  let n := length evac in
  mkDataFrame n (list_to_map [
    ("country", ObjCol (replicate n (Some "FR")));
    ("year", IntCol (replicate n 2000));
    ("true_risk_level", IntCol (replicate n 1));
    ("avalon_evac_recommendation", IntCol evac);
    ("avalon_shutdown_recommendation", IntCol (replicate n 0));
    ("incident_occurred", IntCol incident);
    ("public_anxiety_index", FloatCol (replicate n 1%float));
    ("social_media_rumour_index", FloatCol (replicate n 1%float));
    ("regulator_scrutiny_score", FloatCol (replicate n 1%float));
    ("reactor_type_code", ObjCol (replicate n (Some "PWR")))]).

(** Two normal observations and one in panic mode, and the reverse. *)
Definition mostly_normal : DataFrame := table_of [0; 1; 0] [0; 1; 0].
Definition mostly_panic : DataFrame := table_of [1; 0; 1] [0; 1; 0].

(** No observation in panic mode. *)
Definition all_normal : DataFrame := table_of [0; 0] [0; 1].

(** No incident, one observation in panic mode. *)
Definition no_incident : DataFrame := table_of [0; 1] [0; 0].

(** Thirteen observations from eleven countries. *)
Definition atlas : DataFrame :=
  mkDataFrame 13 {[ "country" :=
    ObjCol (Some <$> ["AT"; "BE"; "CH"; "BE"; "DE"; "ES"; "FR"; "GB"; "HU";
                      "IT"; "JP"; "KR"; "JP"]) ]}.

(** A thousand observations, the first 180 of them in panic mode. *)
Definition thousand : DataFrame :=
  table_of (replicate 180 1 ++ replicate 820 0)%list
           (replicate 900 0 ++ replicate 100 1)%list.

Definition thousand17 : DataFrame :=
  setitem thousand "panic_mode" (IntCol (replicate 180 1 ++ replicate 820 0)%list).

(** Two thousand observations, three of them with an incident. *)
Definition rare_incident : DataFrame :=
  table_of (replicate 1 1 ++ replicate 1999 0)%list
           (replicate 1997 0 ++ replicate 3 1)%list.

(** A world in which every file is the table [df] and the image written is
    the figure stamped with the time of the run. *)
Definition read_const (df : DataFrame) (w : nat) (path : string) : result DataFrame :=
  Ok df.

Definition save_stamped (w : nat) (fig : figure) (path : string)
  : result (nat * figure) := Ok (w, fig).

(** ** Notions used for the remaining panels *)

(** The number of cells of [xs] that are the value [k]. *)
Definition occurrences (k : cell) (xs : list cell) : nat :=
  length (filter (λ x, key_eqb x k = true) xs).

(** The count a counted series holds for the value [k]. *)
Definition held (k : cell) (l : counts) : nat :=
  sum_list (snd <$> filter (λ e, key_eqb e.1 k = true) l).

(** The cells of a column that are not missing. *)
Definition present (c : column) : list cell :=
  filter (λ x, notna x = true) (cells c).

(** A column whose dtype is not float64. *)
Definition discrete (c : column) : Prop :=
  match c with FloatCol _ => False | _ => True end.

(** A list of values that goes up strictly. *)
Definition ascending (ks : list cell) : Prop :=
  ∀ i j x y, (i < j)%nat → ks !! i = Some x → ks !! j = Some y →
             key_ltb x y = true.

(** The order of two entries with integer keys. *)
Definition int_le (a b : cell * nat) : Prop :=
  ∃ x y, a.1 = CInt x ∧ b.1 = CInt y ∧ x ≤ y.

(** The table [mostly_normal] without the reactor type, before and after
    line 17. *)
Definition no_reactor : DataFrame :=
  mkDataFrame (index_len mostly_normal)
              (delete "reactor_type_code" (data mostly_normal)).

Definition no_reactor17 : DataFrame :=
  setitem no_reactor "panic_mode" (IntCol [0; 1; 0]).

(** A text that ends in [tail]. *)
Definition ends_with (txt tail : string) : Prop := ∃ prefix, txt = prefix ++ tail.

(** A table with all the columns and no row. *)
Definition no_rows : DataFrame := table_of [] [].

(** ** The order of equal counts *)

(** An order in which [value_counts] may hand back the counts of [c]: the
    entries of the tally, the largest count first, entries of equal count in
    any order. *)
Definition arrangement (c : column) (arr : counts) : Prop :=
  arr ≡ₚ tally (present c) ∧ descending (values arr).

(** The panel [p] shows the ten most frequent values of the column [c]: at
    most ten bars at the positions 0, 1, ... of an inverted y axis, so that
    the first bar is on top; sizes that never go up; and, when [c] is not a
    float column, labels without repetition, each bar as long as the number
    of cells holding its label, every value of the column either listed or
    no more frequent than any of the ten listed ones, and on top a bar that
    no value of the column exceeds. *)
Definition shows_top_ten (c : column) (p : barh_panel) : Prop :=
  (length (barh_rects p) ≤ 10)%nat ∧
  length (barh_yticklabels p) = length (barh_rects p) ∧
  rect_pos <$> barh_rects p = range (length (barh_rects p)) ∧
  barh_inverted p = true ∧
  descending (rect_size <$> barh_rects p) ∧
  topmost p = barh_rects p !! 0%nat ∧
  (discrete c →
   NoDup (barh_yticklabels p) ∧
   (∀ i k r, barh_yticklabels p !! i = Some k → barh_rects p !! i = Some r →
             k ∈ present c ∧ rect_size r = occurrences k (present c)) ∧
   (∀ k, k ∈ present c →
         k ∈ barh_yticklabels p ∨
         (length (barh_rects p) = 10%nat ∧
          ∀ r, r ∈ barh_rects p → (occurrences k (present c) ≤ rect_size r)%nat)) ∧
   (present c ≠ [] →
    ∃ r, topmost p = Some r ∧
         ∀ k, k ∈ present c → (occurrences k (present c) ≤ rect_size r)%nat)).

(** * Proofs *)

(** ** The exception monad *)

Lemma bind_Ok {A B} (m : result A) (f : A → result B) (b : B) :
  m ≫= f = Ok b → ∃ a, m = Ok a ∧ f a = Ok b.
Proof. destruct m as [a|e]; simpl; [eauto | discriminate]. Qed.

Ltac inv_bind H :=
  let a := fresh "a" in
  let Ha := fresh "H" a in
  apply bind_Ok in H as (a & Ha & H).

Lemma getitem_Ok df key c : getitem df key = Ok c ↔ data df !! key = Some c.
Proof.
  unfold getitem. destruct (data df !! key); split; intros H; congruence.
Qed.

Lemma mapM_Ok {A B} (f : A → result B) (l : list A) (k : list B) :
  mapM f l = Ok k → Forall2 (λ x y, f x = Ok y) l k.
Proof.
  revert k. induction l as [|x l IH]; intros k H; simpl in H.
  - injection H as <-. constructor.
  - inv_bind H. inv_bind H. injection H as <-. constructor; auto.
Qed.

Lemma mapM_total {A B} (f : A → result B) (l : list A) :
  Forall (λ x, ∃ y, f x = Ok y) l → ∃ k, mapM f l = Ok k.
Proof.
  induction 1 as [|x l [y Hy] _ [k Hk]]; simpl.
  - eauto.
  - rewrite Hy. simpl. rewrite Hk. simpl. eauto.
Qed.

(** ** The derived column *)

Lemma cell_eqb_spec x k : cell_eqb x k = true ↔ cell_eq x k.
Proof.
  destruct x; simpl; rewrite ?Z.eqb_eq; intuition discriminate.
Qed.

Lemma cell_leb_spec x k b : cell_leb x k = Ok b → (b = true ↔ cell_le x k).
Proof.
  destruct x; simpl; intros H; try discriminate; injection H as <-;
    rewrite ?Z.leb_le; intuition discriminate.
Qed.

Lemma derive_inv df df' :
  derive_panic_mode df = Ok df' →
  ∃ evac shut risk low,
    data df !! "avalon_evac_recommendation" = Some evac ∧
    data df !! "avalon_shutdown_recommendation" = Some shut ∧
    data df !! "true_risk_level" = Some risk ∧
    le_scalar risk 2 = Ok low ∧
    df' = setitem df "panic_mode" (IntCol (Z.b2z <$> flags evac shut low)).
Proof.
  unfold derive_panic_mode. intros H.
  inv_bind H. inv_bind H. inv_bind H. inv_bind H.
  cbn zeta in H. inv_bind H. inv_bind H. injection H as <-.
  apply getitem_Ok in Ha, Ha0, Ha1, Ha3.
  cbn [setitem data] in Ha3. rewrite lookup_insert_eq in Ha3.
  injection Ha3 as <-. simpl in Ha4. injection Ha4 as <-.
  exists a, a0, a1, a2. repeat split; try assumption.
  unfold setitem, flags. cbn [data index_len]. f_equal.
  apply insert_insert_eq.
Qed.

Lemma derive_total df evac shut risk :
  data df !! "avalon_evac_recommendation" = Some evac →
  data df !! "avalon_shutdown_recommendation" = Some shut →
  data df !! "true_risk_level" = Some risk →
  Forall (λ x, ∀ s, x ≠ CStr s) (cells risk) →
  ∃ df', derive_panic_mode df = Ok df'.
Proof.
  intros He Hs Hr Hnum. unfold derive_panic_mode.
  rewrite (proj2 (getitem_Ok _ _ _) He), (proj2 (getitem_Ok _ _ _) Hs),
    (proj2 (getitem_Ok _ _ _) Hr). simpl.
  destruct (mapM_total (λ x, cell_leb x 2) (cells risk)) as [low Hlow].
  { rewrite Forall_forall in Hnum |- *. intros x Hx.
    specialize (Hnum x Hx). destruct x; simpl; eauto.
    exfalso. by eapply Hnum. }
  unfold le_scalar. rewrite Hlow. simpl.
  unfold getitem, setitem. cbn [data]. rewrite lookup_insert_eq. simpl. eauto.
Qed.

Lemma le_scalar_length risk k low :
  le_scalar risk k = Ok low → length low = col_len risk.
Proof.
  intros H. apply mapM_Ok, Forall2_length in H. by rewrite <- H.
Qed.

Lemma flags_lookup evac shut risk low i e s r :
  cells evac !! i = Some e → cells shut !! i = Some s →
  cells risk !! i = Some r → le_scalar risk 2 = Ok low →
  ∃ b, cell_leb r 2 = Ok b ∧
       flags evac shut low !! i = Some ((cell_eqb e 1 || cell_eqb s 1) && b).
Proof.
  intros He Hs Hr Hlow. apply mapM_Ok in Hlow.
  destruct (Forall2_lookup_l _ _ _ _ _ Hlow Hr) as (b & Hb & Hrb).
  exists b. split; [exact Hrb|].
  unfold flags, series_and, series_or, eq_scalar.
  rewrite !lookup_zip_with, !list_lookup_fmap, He, Hs, Hb. reflexivity.
Qed.

Lemma flags_length df evac shut risk low :
  wf df →
  data df !! "avalon_evac_recommendation" = Some evac →
  data df !! "avalon_shutdown_recommendation" = Some shut →
  data df !! "true_risk_level" = Some risk →
  le_scalar risk 2 = Ok low →
  length (flags evac shut low) = index_len df.
Proof.
  intros Hwf He Hs Hr Hlow.
  apply le_scalar_length in Hlow.
  apply Hwf in He, Hs, Hr. unfold col_len in *.
  unfold flags, series_and, series_or, eq_scalar.
  rewrite !length_zip_with, !length_fmap. lia.
Qed.

Lemma b2z_one (b : bool) : Z.b2z b = 1 ↔ b = true.
Proof. destruct b; simpl; intuition discriminate. Qed.

Lemma b2z_zero (b : bool) : Z.b2z b = 0 ↔ b ≠ true.
Proof. destruct b; simpl; intuition discriminate. Qed.

Lemma rule_reflect e s r b :
  cell_leb r 2 = Ok b →
  (cell_eqb e 1 || cell_eqb s 1) && b = true ↔ panic_rule e s r.
Proof.
  intros Hb. unfold panic_rule.
  rewrite andb_true_iff, orb_true_iff, !cell_eqb_spec.
  by rewrite (cell_leb_spec _ _ _ Hb).
Qed.

(** C1. In every row of the loaded table the derived [panic_mode] is 1
    exactly when an evacuation or a shutdown is recommended (the
    recommendation equals 1) and [true_risk_level] is at most 2, and it is 0
    exactly when that is not so. *)
Theorem panic_mode_rule (df df' : DataFrame) :
  wf df →
  derive_panic_mode df = Ok df' →
  ∃ pm,
    data df' !! "panic_mode" = Some (IntCol pm) ∧
    length pm = index_len df ∧
    ∀ i, (i < index_len df)%nat →
      ∃ evac shut risk p,
        cell_at df "avalon_evac_recommendation" i = Some evac ∧
        cell_at df "avalon_shutdown_recommendation" i = Some shut ∧
        cell_at df "true_risk_level" i = Some risk ∧
        pm !! i = Some p ∧
        (p = 1 ↔ panic_rule evac shut risk) ∧
        (p = 0 ↔ ¬ panic_rule evac shut risk).
Proof.
  intros Hwf H.
  destruct (derive_inv _ _ H) as (ce & cs & cr & low & He & Hs & Hr & Hlow & ->).
  exists (Z.b2z <$> flags ce cs low).
  pose proof (flags_length _ _ _ _ _ Hwf He Hs Hr Hlow) as Hlen.
  split; [apply lookup_insert_eq|].
  split; [by rewrite length_fmap|].
  intros i Hi.
  destruct (lookup_lt_is_Some_2 (cells ce) i) as [e Hie].
  { apply Hwf in He. unfold col_len in He. lia. }
  destruct (lookup_lt_is_Some_2 (cells cs) i) as [s His].
  { apply Hwf in Hs. unfold col_len in Hs. lia. }
  destruct (lookup_lt_is_Some_2 (cells cr) i) as [r Hir].
  { apply Hwf in Hr. unfold col_len in Hr. lia. }
  destruct (flags_lookup _ _ _ _ _ _ _ _ Hie His Hir Hlow) as (b & Hb & Hf).
  exists e, s, r, (Z.b2z ((cell_eqb e 1 || cell_eqb s 1) && b)).
  unfold cell_at. rewrite He, Hs, Hr. simpl.
  split_and!; try assumption.
  - by rewrite list_lookup_fmap, Hf.
  - rewrite b2z_one. by apply rule_reflect.
  - by rewrite b2z_zero, (rule_reflect _ _ _ _ Hb).
Qed.

Lemma wfb_wf df : wfb df = true → wf df.
Proof.
  unfold wfb, wf. rewrite forallb_forall. intros H k c Hk.
  apply Nat.eqb_eq. apply (H (k, c)).
  apply list_elem_of_In. by apply elem_of_map_to_list.
Qed.

Lemma derive_sample : derive_panic_mode sample = Ok sample17.
Proof. vm_compute. reflexivity. Qed.

Lemma panic_mode_rule_witness :
  ∃ pm,
    data sample17 !! "panic_mode" = Some (IntCol pm) ∧
    length pm = index_len sample ∧
    ∀ i, (i < index_len sample)%nat →
      ∃ evac shut risk p,
        cell_at sample "avalon_evac_recommendation" i = Some evac ∧
        cell_at sample "avalon_shutdown_recommendation" i = Some shut ∧
        cell_at sample "true_risk_level" i = Some risk ∧
        pm !! i = Some p ∧
        (p = 1 ↔ panic_rule evac shut risk) ∧
        (p = 0 ↔ ¬ panic_rule evac shut risk).
Proof.
  apply (panic_mode_rule sample sample17).
  - apply wfb_wf. vm_compute. reflexivity.
  - vm_compute. reflexivity.
Defined.

(** ** The run as a whole *)

Section ScriptFacts.

Context {World Image : Type}.
Variable read_csv : World → string → result DataFrame.
Variable savefig : World → figure → string → result Image.
Variable repr_float : float → string.


(** A run whose figure is not drawn prints nothing and ends in the
    exception. *)
Lemma script_draw_Raise w df df1 e :
  read_csv w "avalon_nuclear.csv" = Ok df →
  derive_panic_mode df = Ok df1 →
  draw repr_float df1 = Raise e →
  script read_csv savefig repr_float w = ([], Raise e).
Proof.
  unfold script. intros -> Hderive Hdraw. simpl.
  rewrite Hderive. simpl. rewrite Hdraw. reflexivity.
Qed.

End ScriptFacts.

Lemma derive_bits evac shut low :
  Forall (λ v, v = 0 ∨ v = 1) (Z.b2z <$> flags evac shut low).
Proof.
  apply Forall_fmap, Forall_true. intros []; simpl; auto.
Qed.

(** The column line 17 leaves holds zeros and ones; the index is untouched. *)
Lemma derived_column df0 df :
  derive_panic_mode df0 = Ok df →
  index_len df = index_len df0 ∧
  ∃ pm, data df !! "panic_mode" = Some (IntCol pm) ∧
        Forall (λ v, v = 0 ∨ v = 1) pm.
Proof.
  intros H.
  destruct (derive_inv _ _ H) as (ce & cs & cr & low & _ & _ & _ & _ & ->).
  split; [done|]. eexists. split; [apply lookup_insert_eq|]. apply derive_bits.
Qed.



(** ** Counting the values of a column *)

Lemma key_eqb_eq k' k : exact k → key_eqb k' k = true ↔ k' = k.
Proof.
  destruct k, k'; simpl; try tauto; intros _;
    rewrite ?Z.eqb_eq, ?String.eqb_eq, ?Bool.eqb_true_iff;
    (split; [congruence | intros [=]; congruence]).
Qed.

Lemma bump_sum k acc : sum_list (values (bump k acc)) = S (sum_list (values acc)).
Proof.
  induction acc as [|[k' n] acc IH]; simpl; [done|].
  destruct (key_eqb k' k); simpl; [done|].
  rewrite IH. lia.
Qed.

Lemma bump_index k acc :
  exact k →
  (k ∈ index acc ∧ index (bump k acc) = index acc) ∨
  ((k ∉ index acc) ∧ index (bump k acc) = (index acc ++ [k])%list).
Proof.
  intros Hk. induction acc as [|[k' n] acc IH]; simpl.
  - right. split; [apply not_elem_of_nil | done].
  - destruct (key_eqb k' k) eqn:E.
    + apply key_eqb_eq in E as ->; [|done]. left. split; [left | done].
    + assert (k' ≠ k) as Hne.
      { intros ->. rewrite (proj2 (key_eqb_eq k k Hk) eq_refl) in E. done. }
      destruct IH as [[Hin Heq] | [Hout Heq]]; [left | right]; simpl;
        unfold index in *; rewrite Heq; (split; [|done]).
      * by right.
      * rewrite elem_of_cons. intros [->|?]; done.
Qed.

Lemma bump_positive k acc :
  Forall (λ e, (1 ≤ e.2)%nat) acc → Forall (λ e, (1 ≤ e.2)%nat) (bump k acc).
Proof.
  induction 1 as [|[k' n] acc Hn Hall IH]; simpl.
  - repeat constructor.
  - destruct (key_eqb k' k); constructor; simpl in *; auto with lia.
Qed.

(** The invariant of the counting loop. *)
Lemma tally_loop xs : ∀ acc,
  sum_list (values (foldl (λ acc x, bump x acc) acc xs))
    = (sum_list (values acc) + length xs)%nat ∧
  (Forall (λ e, (1 ≤ e.2)%nat) acc →
   Forall (λ e, (1 ≤ e.2)%nat) (foldl (λ acc x, bump x acc) acc xs)) ∧
  (Forall exact xs → NoDup (index acc) →
   NoDup (index (foldl (λ acc x, bump x acc) acc xs)) ∧
   ∀ k, k ∈ index (foldl (λ acc x, bump x acc) acc xs) ↔ k ∈ index acc ∨ k ∈ xs).
Proof.
  induction xs as [|x xs IH]; intros acc; simpl.
  - split_and!; [lia | done |]. intros _ Hnd. split; [done|].
    intros k. rewrite elem_of_nil. tauto.
  - destruct (IH (bump x acc)) as (Hsum & Hpos & Hkeys). split_and!.
    + rewrite Hsum, bump_sum. lia.
    + intros H. by apply Hpos, bump_positive.
    + intros Hex Hnd. apply Forall_cons_1 in Hex as [Hx Hex].
      assert (NoDup (index (bump x acc)) ∧
              ∀ k, k ∈ index (bump x acc) ↔ k ∈ index acc ∨ k = x) as [Hnd' Hin'].
      { destruct (bump_index x acc Hx) as [[Hin ->] | [Hout ->]].
        - split; [done|]. intros k. split; [tauto | intros [?| ->]; done].
        - split.
          + apply list.NoDup_app. split_and!; [done | | apply NoDup_singleton].
            intros k Hk. rewrite list_elem_of_singleton. by intros ->.
          + intros k. by rewrite elem_of_app, list_elem_of_singleton. }
      destruct (Hkeys Hex Hnd') as [Hnd'' Hin'']. split; [done|].
      intros k. rewrite Hin'', Hin', elem_of_cons. tauto.
Qed.

Lemma tally_sum xs : sum_list (values (tally xs)) = length xs.
Proof. unfold tally. by destruct (tally_loop xs []) as [-> _]. Qed.

Lemma tally_positive xs : Forall (λ e, (1 ≤ e.2)%nat) (tally xs).
Proof. destruct (tally_loop xs []) as (_ & H & _). by apply H. Qed.

Lemma tally_keys xs :
  Forall exact xs →
  NoDup (index (tally xs)) ∧ ∀ k, k ∈ index (tally xs) ↔ k ∈ xs.
Proof.
  intros Hex. destruct (tally_loop xs []) as (_ & _ & H).
  destruct (H Hex (NoDup_nil_2)) as [Hnd Hin]. split; [done|].
  intros k. rewrite Hin. simpl. rewrite elem_of_nil. tauto.
Qed.

(** ** Sorting by count *)

Lemma insert_desc_perm e l : insert_desc e l ≡ₚ e :: l.
Proof.
  induction l as [|e' l IH]; simpl; [done|].
  destruct (e'.2 <=? e.2)%nat; [done|].
  rewrite IH. apply Permutation_swap.
Qed.

Lemma sort_desc_perm l : sort_desc l ≡ₚ l.
Proof.
  induction l as [|e l IH]; simpl; [done|].
  by rewrite insert_desc_perm, IH.
Qed.

Lemma insert_desc_sorted e l :
  StronglySorted (λ a b, (b.2 ≤ a.2)%nat) l →
  StronglySorted (λ a b, (b.2 ≤ a.2)%nat) (insert_desc e l).
Proof.
  induction 1 as [|e' l Hs IH Hall]; simpl.
  - repeat constructor.
  - destruct (e'.2 <=? e.2)%nat eqn:E.
    + apply Nat.leb_le in E. constructor; [by constructor|].
      constructor; [done|].
      eapply Forall_impl; [exact Hall|]. simpl. intros; lia.
    + apply Nat.leb_gt in E. constructor; [done|].
      rewrite insert_desc_perm. constructor; [lia | done].
Qed.

Lemma sort_desc_sorted l : StronglySorted (λ a b, (b.2 ≤ a.2)%nat) (sort_desc l).
Proof.
  induction l; simpl; [constructor | by apply insert_desc_sorted].
Qed.

(** Entries of equal count stay in the order they had. *)
Lemma insert_desc_stable n e l :
  filter (λ x, x.2 = n) (insert_desc e l) = filter (λ x, x.2 = n) (e :: l).
Proof.
  induction l as [|e' l IH]; simpl; [done|].
  destruct (e'.2 <=? e.2)%nat eqn:E; [done|].
  apply Nat.leb_gt in E.
  rewrite !filter_cons in *. rewrite IH.
  destruct (decide (e'.2 = n)), (decide (e.2 = n)); try done. lia.
Qed.

Lemma sort_desc_stable n l :
  filter (λ x, x.2 = n) (sort_desc l) = filter (λ x, x.2 = n) l.
Proof.
  induction l as [|e l IH]; simpl; [done|].
  rewrite insert_desc_stable, !filter_cons, IH. done.
Qed.

Lemma sorted_descending (l : counts) :
  StronglySorted (λ a b, (b.2 ≤ a.2)%nat) l → descending (values l).
Proof.
  induction 1 as [|e l Hs IH Hall]; intros i j a b Hij Hi Hj.
  - done.
  - destruct i as [|i], j as [|j]; simpl in *.
    + injection Hi as <-. injection Hj as <-. lia.
    + injection Hi as <-. unfold values in Hj.
      rewrite list_lookup_fmap in Hj.
      destruct (l !! j) as [e'|] eqn:El; [|done]. injection Hj as <-.
      rewrite Forall_forall in Hall. apply Hall.
      by eapply list_elem_of_lookup_2.
    + lia.
    + apply (IH i j); [lia | done | done].
Qed.

Lemma descending_take n l : descending l → descending (take n l).
Proof.
  intros H i j a b Hij Hi Hj.
  apply lookup_take_Some in Hi as [Hi _], Hj as [Hj _]. eauto.
Qed.

Lemma values_take n (l : counts) : values (take n l) = take n (values l).
Proof. unfold values. by rewrite fmap_take. Qed.

(** ** [value_counts] *)

Lemma notna_exact xs :
  Forall exact xs → filter (λ x, notna x = true) xs = xs.
Proof.
  induction 1 as [|x xs Hx _ IH]; [done|].
  rewrite filter_cons, IH. destruct x; simpl in *; done.
Qed.

Lemma exact_int xs : Forall exact (CInt <$> xs).
Proof. apply Forall_fmap, Forall_true. done. Qed.

Lemma value_counts_perm c :
  value_counts c ≡ₚ tally (filter (λ x, notna x = true) (cells c)).
Proof. apply sort_desc_perm. Qed.

(** The counts add up to the number of cells that are not missing. *)
Lemma value_counts_sum c :
  sum_list (values (value_counts c))
  = length (filter (λ x, notna x = true) (cells c)).
Proof.
  unfold values. rewrite (value_counts_perm c). apply tally_sum.
Qed.

Lemma value_counts_int_sum xs :
  sum_list (values (value_counts (IntCol xs))) = length xs.
Proof.
  rewrite value_counts_sum. simpl.
  by rewrite (notna_exact _ (exact_int xs)), length_fmap.
Qed.

Lemma value_counts_sorted c : descending (values (value_counts c)).
Proof. apply sorted_descending, sort_desc_sorted. Qed.

(** The index of the counts of an int64 column: its distinct values. *)
Lemma value_counts_int_keys xs :
  NoDup (index (value_counts (IntCol xs))) ∧
  ∀ k, k ∈ index (value_counts (IntCol xs)) ↔ k ∈ CInt <$> xs.
Proof.
  destruct (tally_keys (CInt <$> xs) (exact_int xs)) as [Hnd Hin].
  assert (index (value_counts (IntCol xs)) ≡ₚ index (tally (CInt <$> xs))) as Hp.
  { unfold index. rewrite (value_counts_perm (IntCol xs)). simpl.
    by rewrite (notna_exact _ (exact_int xs)). }
  split; [by rewrite Hp|]. intros k. by rewrite Hp.
Qed.

(** A column with one distinct value has one count. *)
Lemma value_counts_constant v xs :
  xs ≠ [] → Forall (λ x, x = v) xs →
  value_counts (IntCol xs) = [(CInt v, length xs)].
Proof.
  intros Hne Hall.
  destruct (value_counts_int_keys xs) as [Hnd Hin].
  assert (index (value_counts (IntCol xs)) ≡ₚ [CInt v]) as Hp.
  { apply NoDup_Permutation; [done | apply NoDup_singleton|].
    intros k. rewrite Hin, list_elem_of_singleton, list_elem_of_fmap. split.
    - intros (x & -> & Hx). rewrite Forall_forall in Hall. by rewrite (Hall x Hx).
    - intros ->. destruct xs as [|x xs]; [done|]. exists x.
      apply Forall_cons_1 in Hall as [-> _]. split; [done | left]. }
  pose proof (value_counts_int_sum xs) as Hsum.
  destruct (value_counts (IntCol xs)) as [|[k n] [|e l]].
  - apply Permutation_length in Hp. done.
  - apply Permutation_singleton_r in Hp. simpl in Hp. injection Hp as ->.
    simpl in Hsum. f_equal. f_equal. lia.
  - apply Permutation_length in Hp. done.
Qed.

(** A column of zeros and ones in which both occur has two counts. *)
Lemma value_counts_two xs :
  Forall (λ x, x = 0 ∨ x = 1) xs → 0 ∈ xs → 1 ∈ xs →
  ∃ k1 n1 k2 n2,
    value_counts (IntCol xs) = [(k1, n1); (k2, n2)] ∧
    (n1 + n2 = length xs)%nat ∧ (n2 ≤ n1)%nat ∧
    (k1 = CInt 0 ∧ k2 = CInt 1 ∨ k1 = CInt 1 ∧ k2 = CInt 0).
Proof.
  intros Hall H0 H1.
  destruct (value_counts_int_keys xs) as [Hnd Hin].
  assert (index (value_counts (IntCol xs)) ≡ₚ [CInt 0; CInt 1]) as Hp.
  { apply NoDup_Permutation; [done | |].
    - apply NoDup_cons. split; [|apply NoDup_singleton].
      rewrite list_elem_of_singleton. done.
    - intros k. rewrite Hin, list_elem_of_fmap, !elem_of_cons, elem_of_nil. split.
      + intros (x & -> & Hx). rewrite Forall_forall in Hall.
        destruct (Hall x Hx) as [-> | ->]; tauto.
      + intros [-> | [-> | []]]; eauto. }
  pose proof (value_counts_int_sum xs) as Hsum.
  pose proof (value_counts_sorted (IntCol xs)) as Hsorted.
  destruct (value_counts (IntCol xs)) as [|[k1 n1] [|[k2 n2] [|e l]]];
    try (apply Permutation_length in Hp; done).
  exists k1, n1, k2, n2. split_and!; [done | simpl in Hsum; lia | |].
  - by apply (Hsorted 0%nat 1%nat n1 n2); [lia | |].
  - simpl in Hp. apply Permutation_length_2 in Hp as [[-> ->] | [-> ->]]; tauto.
Qed.

(** ** The pie of panel 2 *)

Lemma nearest_even_spec x :
  (x - (1 # 2) <= inject_Z (nearest_even x) <= x + (1 # 2))%Q.
Proof.
  unfold nearest_even.
  pose proof (Qfloor_le x) as Hlo. pose proof (Qlt_floor x) as Hhi.
  rewrite inject_Z_plus in Hhi. change (inject_Z 1) with 1%Q in Hhi.
  destruct (Qcompare_spec (x - inject_Z (Qfloor x)) (1 # 2)) as [He|Hl|Hg];
    [destruct (Z.even (Qfloor x))| |];
    rewrite ?inject_Z_plus; change (inject_Z 1) with 1%Q; lra.
Qed.

Lemma two_power_pos k : (0 < 2 ^ k)%Q.
Proof. apply Qpower_0_lt. reflexivity. Qed.

Lemma binade_spec q : (0 < q)%Q -> (2 ^ binade q <= q)%Q.
Proof.
  intros Hq. unfold binade.
  destruct (Qle_bool _ q) eqn:E; [by apply Qle_bool_iff|]. clear E.
  destruct q as [n d]. cbn [Qnum Qden].
  assert (0 < n) as Hn by (unfold Qlt in Hq; simpl in Hq; lia).
  destruct (Z.log2_spec n Hn) as [Ha _].
  destruct (Z.log2_spec (Z.pos d) (Pos2Z.is_pos d)) as [_ Hb].
  pose proof (Z.log2_nonneg n) as Ha0. pose proof (Z.log2_nonneg (Z.pos d)) as Hb0.
  set (a := Z.log2 n) in *. set (b := Z.log2 (Z.pos d)) in *.
  replace (a - b - 1) with (a + - (Z.succ b)) by lia.
  rewrite Qpower_plus by discriminate. rewrite Qpower_opp.
  rewrite <- !(Zpower_Qpower 2) by lia.
  assert (0 < 2 ^ Z.succ b) as Hp by (apply Z.pow_pos_nonneg; lia).
  rewrite (Qmake_Qdiv n d).
  apply Qle_shift_div_l; [unfold Qlt; simpl; lia|].
  unfold Qdiv. rewrite <- Qmult_assoc, (Qmult_comm (/ _)), Qmult_assoc.
  apply Qle_shift_div_r; [unfold Qlt; simpl; lia|].
  rewrite <- !inject_Z_mult, <- Zle_Qle. nia.
Qed.

Lemma nearest32_rel q :
  (0 < q)%Q ->
  ((1 - ulp32) * q <= nearest32 q <= (1 + ulp32) * q)%Q.
Proof.
  intros Hq. pose proof (binade_spec q Hq) as He. unfold nearest32.
  set (k := binade q - 23).
  replace (binade q) with (k + 23) in He by lia.
  rewrite Qpower_plus in He by discriminate.
  change (2 ^ 23)%Q with 8388608%Q in He.
  pose proof (two_power_pos k) as HP.
  set (P := (2 ^ k)%Q) in *.
  pose proof (nearest_even_spec (q / P)) as [Hlo Hhi].
  set (m := inject_Z (nearest_even (q / P))) in *.
  assert (q / P * P == q)%Q as Hx by (field; lra).
  set (x := (q / P)%Q) in *.
  assert ((x - (1 # 2)) * P <= m * P)%Q as H1 by (apply Qmult_le_compat_r; lra).
  assert (m * P <= (x + (1 # 2)) * P)%Q as H2 by (apply Qmult_le_compat_r; lra).
  unfold ulp32. split; lra.
Qed.

Lemma Qcancel_r (a b s : Q) : (0 < s -> a * s <= b * s -> a <= b)%Q.
Proof. intros Hs H. by apply (Qmult_le_r _ _ s Hs). Qed.

Lemma Qscale_bound (p w lo hi : Q) :
  (0 <= p <= 1 -> - lo <= w <= hi -> 0 <= lo -> 0 <= hi ->
   - lo <= p * w <= hi)%Q.
Proof. intros. nra. Qed.

Lemma pie_bounds (A B x1 x2 t s f1 f2 : Q) :
  (0 < A)%Q -> (0 < B)%Q ->
  rounds A x1 -> rounds B x2 -> rounds x2 t -> rounds (x1 + t) s ->
  rounds (x1 / s) f1 -> rounds (x2 / s) f2 ->
  (- (1 # 4194304) <= f1 + f2 - 1 <= 1 # 4194304)%Q /\
  (- (1 # 2097152) <= f1 - A / (A + B) <= 1 # 2097152)%Q /\
  (- (1 # 2097152) <= f2 - B / (A + B) <= 1 # 2097152)%Q.
Proof.
  unfold rounds, ulp32. intros HA HB [Hx1 Hx1'] [Hx2 Hx2'] [Ht Ht'] [Hs Hs'].
  assert (0 < s)%Q as Hs0 by lra.
  set (q1 := (x1 / s)%Q). set (q2 := (x2 / s)%Q).
  assert (q1 * s == x1)%Q as Hq1 by (unfold q1; field; lra).
  assert (q2 * s == x2)%Q as Hq2 by (unfold q2; field; lra).
  set (al := (A / s)%Q). set (be := (B / s)%Q).
  assert (al * s == A)%Q as Hal by (unfold al; field; lra).
  assert (be * s == B)%Q as Hbe by (unfold be; field; lra).
  set (p1 := (A / (A + B))%Q). set (p2 := (B / (A + B))%Q).
  assert (p1 * (A + B) == A)%Q as Hp1 by (unfold p1; field; lra).
  assert (p2 * (A + B) == B)%Q as Hp2 by (unfold p2; field; lra).
  clearbody q1 q2 al be p1 p2.
  intros [Hf1 Hf1'] [Hf2 Hf2'].
  assert (0 < al)%Q as Hal0.
  { apply (Qmult_lt_r _ _ s Hs0). lra. }
  assert (0 < be)%Q as Hbe0.
  { apply (Qmult_lt_r _ _ s Hs0). lra. }
  assert (0 < p1)%Q as Hp10.
  { apply (Qmult_lt_r _ _ (A + B)); lra. }
  assert (0 < p2)%Q as Hp20.
  { apply (Qmult_lt_r _ _ (A + B)); lra. }
  assert (p1 + p2 == 1)%Q as Hp.
  { apply (Qmult_inj_r _ _ (A + B)); lra. }
  assert ((1 - (1 # 16777216)) * al <= q1)%Q as Ha1
    by (apply (Qcancel_r _ _ s Hs0); lra).
  assert (q1 <= (1 + (1 # 16777216)) * al)%Q as Ha1'
    by (apply (Qcancel_r _ _ s Hs0); lra).
  assert ((1 - (1 # 16777216)) * be <= q2)%Q as Hb1
    by (apply (Qcancel_r _ _ s Hs0); lra).
  assert (q2 <= (1 + (1 # 16777216)) * be)%Q as Hb1'
    by (apply (Qcancel_r _ _ s Hs0); lra).
  assert ((1 - (1 # 16777216)) * q1
          + (1 - (1 # 16777216)) * (1 - (1 # 16777216)) * q2 <= 1)%Q as Hone
    by (apply (Qcancel_r _ _ s Hs0); lra).
  assert (1 <= (1 + (1 # 16777216)) * q1
               + (1 + (1 # 16777216)) * (1 + (1 # 16777216)) * q2)%Q as Hone'
    by (apply (Qcancel_r _ _ s Hs0); lra).
  assert (al == p1 * (al + be))%Q as Hsplit1.
  { apply (Qmult_inj_r _ _ s); [lra|].
    transitivity (p1 * (A + B))%Q; [lra|]. rewrite <- Hal, <- Hbe. ring. }
  assert (be == p2 * (al + be))%Q as Hsplit2.
  { apply (Qmult_inj_r _ _ s); [lra|].
    transitivity (p2 * (A + B))%Q; [lra|]. rewrite <- Hal, <- Hbe. ring. }
  set (w := (al + be - 1)%Q).
  assert (- (3 # 16777216) <= w <= 4 # 16777216)%Q as [Hw Hw'] by (unfold w; lra).
  destruct (Qscale_bound p1 w (3 # 16777216) (4 # 16777216)) as [Hpw1 Hpw1'];
    [lra | lra | lra | lra |].
  destruct (Qscale_bound p2 w (3 # 16777216) (4 # 16777216)) as [Hpw2 Hpw2'];
    [lra | lra | lra | lra |].
  assert (al - p1 == p1 * w)%Q as Hd1 by (unfold w; lra).
  assert (be - p2 == p2 * w)%Q as Hd2 by (unfold w; lra).
  split_and!; lra.
Qed.

Lemma round32_rounds (q : Qc) : (0 < q)%Qc -> rounds q (round32 q).
Proof.
  intros Hq. unfold round32.
  assert ((q ?= 0)%Qc = Gt) as -> by (by apply Qcgt_alt).
  unfold rounds. cbn [this Q2Qc]. rewrite Qred_correct.
  by apply nearest32_rel.
Qed.

Lemma rounds_pos x y : (0 < x)%Q -> rounds x y -> (0 < y)%Q.
Proof. unfold rounds, ulp32. intros Hx [H _]. lra. Qed.

Lemma rounds_proper x x' y : (x == x')%Q -> rounds x y -> rounds x' y.
Proof. unfold rounds. intros ->. done. Qed.

Lemma Qc_of_nat_pos n : (0 < n)%nat -> (0 < Qc_of_nat n)%Qc.
Proof. intros Hn. unfold Qclt, Qlt. simpl. lia. Qed.

Lemma pie_fracs_two a b :
  (0 < a)%nat -> (0 < b)%nat ->
  ∃ f1 f2, pie_fracs [a; b] = [f1; f2] ∧
           within (Q2Qc (1 # 4194304)) (sum_Qc [f1; f2]) 1 ∧
           within (Q2Qc (1 # 2097152)) f1 (Qc_of_nat a / Qc_of_nat (a + b)) ∧
           within (Q2Qc (1 # 2097152)) f2 (Qc_of_nat b / Qc_of_nat (a + b)).
Proof.
  intros Ha Hb.
  exists (div32 (float32 a) (add32 (float32 a) (add32 0 (float32 b)))),
         (div32 (float32 b) (add32 (float32 a) (add32 0 (float32 b)))).
  split; [reflexivity|].
  pose proof (Qc_of_nat_pos a Ha) as HA. pose proof (Qc_of_nat_pos b Hb) as HB.
  pose proof (round32_rounds _ HA) as Hx1. pose proof (round32_rounds _ HB) as Hx2.
  fold (float32 a) in Hx1. fold (float32 b) in Hx2.
  assert (add32 0 (float32 b) = round32 (float32 b)) as ->
    by (unfold add32; by rewrite Qcplus_0_l).
  assert (0 < float32 a)%Qc as Hx1p by (by apply (rounds_pos (Qc_of_nat a))).
  assert (0 < float32 b)%Qc as Hx2p by (by apply (rounds_pos (Qc_of_nat b))).
  pose proof (round32_rounds _ Hx2p) as Ht.
  assert (0 < round32 (float32 b))%Qc as Htp by (by apply (rounds_pos (float32 b))).
  set (x1 := float32 a) in *. set (x2 := float32 b) in *.
  set (t := round32 x2) in *.
  assert (0 < x1 + t)%Qc as Hsum.
  { unfold Qclt in *. cbn [this Qcplus Q2Qc]. rewrite !Qred_correct.
    change (this 0%Qc) with 0%Q in *. lra. }
  pose proof (round32_rounds _ Hsum) as Hs. fold (add32 x1 t) in Hs.
  assert (0 < add32 x1 t)%Qc as Hsp by (by apply (rounds_pos (x1 + t)%Qc)).
  set (s := add32 x1 t) in *.
  assert (∀ x : Qc, (0 < x)%Qc -> (0 < x / s)%Qc) as Hdiv.
  { intros x Hx. unfold Qcdiv, Qcmult, Qcinv, Qclt in *. cbn [this Q2Qc].
    rewrite !Qred_correct. change (this 0%Qc) with 0%Q in *.
    apply Qmult_lt_0_compat; [done | by apply Qinv_lt_0_compat]. }
  pose proof (round32_rounds _ (Hdiv _ Hx1p)) as Hf1.
  pose proof (round32_rounds _ (Hdiv _ Hx2p)) as Hf2.
  fold (div32 x1 s) in Hf1. fold (div32 x2 s) in Hf2.
  set (f1 := div32 x1 s) in *. set (f2 := div32 x2 s) in *.
  assert (∀ x y : Qc, (this (x / y)%Qc == this x / this y)%Q) as Hthis_div.
  { intros x y. unfold Qcdiv, Qcmult, Qcinv. cbn [this Q2Qc].
    by rewrite !Qred_correct. }
  apply (rounds_proper _ (x1 + t)%Q) in Hs;
    [|cbn [this Qcplus Q2Qc]; by rewrite Qred_correct].
  apply (rounds_proper _ (x1 / s)%Q) in Hf1; [|apply Hthis_div].
  apply (rounds_proper _ (x2 / s)%Q) in Hf2; [|apply Hthis_div].
  destruct (pie_bounds (Qc_of_nat a) (Qc_of_nat b) x1 x2 t s f1 f2)
    as (Hsum1 & Hw1 & Hw2); [done..|].
  assert (this (Qc_of_nat (a + b)) == this (Qc_of_nat a) + this (Qc_of_nat b))%Q
    as Hab.
  { unfold Qc_of_nat. cbn [this Qc_of_Z Q2Qc].
    by rewrite Nat2Z.inj_add, inject_Z_plus. }
  unfold within, sum_Qc, Qcle, Qcminus. cbn [foldr this Qcplus Qcopp Q2Qc].
  rewrite !Hthis_div, !Qred_correct, Hab.
  change (this 1%Qc) with 1%Q. change (this 0%Qc) with 0%Q.
  split_and!; lra.
Qed.

Lemma pie_wrong_length x l1 l2 cs :
  length x ≠ 2%nat → pie x [l1; l2] cs = Raise ValueError.
Proof. intros H. unfold pie. simpl. by destruct (decide _). Qed.

Lemma pie_two a b l1 l2 cs :
  pie [a; b] [l1; l2] cs
  = Ok [mkWedge (div32 (float32 a) (sum32 [float32 a; float32 b])) l1 (cycle cs 0);
        mkWedge (div32 (float32 b) (sum32 [float32 a; float32 b])) l2 (cycle cs 1)].
Proof. reflexivity. Qed.

(** The counts the pie is drawn from, on a table line 17 has left. *)
Lemma panic_counts_derived df0 df :
  wf df0 → derive_panic_mode df0 = Ok df →
  ∃ pm, data df !! "panic_mode" = Some (IntCol pm) ∧
        length pm = index_len df0 ∧
        panic_counts df = Ok (value_counts (IntCol pm)).
Proof.
  intros Hwf H.
  destruct (derive_inv _ _ H) as (ce & cs & cr & low & He & Hs & Hr & Hlow & ->).
  eexists. split_and!.
  - apply lookup_insert_eq.
  - rewrite length_fmap. by eapply flags_length.
  - unfold panic_counts, getitem. cbn [setitem data].
    by rewrite lookup_insert_eq.
Qed.

Lemma mostly_normal_derived :
  derive_panic_mode mostly_normal
  = Ok (setitem mostly_normal "panic_mode" (IntCol [0; 1; 0])).
Proof. vm_compute. reflexivity. Qed.

Lemma panel2_counts df pc :
  panic_counts df = Ok pc →
  panel2 df
  = wedges ← pie (values pc) ["Normal"; "Panic Mode"] colors;
    Ok (mkPiePanel wedges ("Panic Mode Distribution" ++ nl ++ "(n=180 panic cases)")).
Proof. unfold panel2. by intros ->. Qed.

(** Whenever the pie is drawn, its first wedge is labelled Normal and green,
    its second Panic Mode and red, and they stand for the most frequent and
    the least frequent value of [panic_mode], in that order. *)
Lemma panel2_positional df p :
  panel2 df = Ok p →
  ∃ k1 n1 k2 n2,
    panic_counts df = Ok [(k1, n1); (k2, n2)] ∧ (n2 ≤ n1)%nat ∧
    pie_wedges p
    = [mkWedge (div32 (float32 n1) (sum32 [float32 n1; float32 n2]))
               "Normal" "#2ecc71";
       mkWedge (div32 (float32 n2) (sum32 [float32 n1; float32 n2]))
               "Panic Mode" "#e74c3c"].
Proof.
  unfold panel2. intros H. inv_bind H. inv_bind H. injection H as <-.
  pose proof Ha as Hpc. unfold panic_counts in Hpc. inv_bind Hpc.
  injection Hpc as <-.
  pose proof (value_counts_sorted a1) as Hsorted.
  destruct (value_counts a1) as [|[k1 n1] [|[k2 n2] [|e l]]];
    try (rewrite pie_wrong_length in Ha0 by (simpl; lia); discriminate).
  simpl in Ha0. rewrite pie_two in Ha0. injection Ha0 as <-.
  exists k1, n1, k2, n2. split_and!; [done | | done].
  by apply (Hsorted 0%nat 1%nat n1 n2); [lia | |].
Qed.

(** C10. When every row of a table that is not empty has the same
    [panic_mode], the pie is handed one value and two labels: it raises, no
    figure is drawn, and the run ends in an exception having printed
    nothing. *)
Theorem one_category_aborts (df0 df : DataFrame) (pm : list Z) (v : Z) :
  wf df0 →
  index_len df0 ≠ 0%nat →
  derive_panic_mode df0 = Ok df →
  data df !! "panic_mode" = Some (IntCol pm) →
  Forall (λ x, x = v) pm →
  panic_counts df = Ok [(CInt v, index_len df0)] ∧
  pie (values [(CInt v, index_len df0)]) ["Normal"; "Panic Mode"] colors
    = Raise ValueError ∧
  panel2 df = Raise ValueError ∧
  (∀ repr_float, ∃ e, draw repr_float df = Raise e) ∧
  (∀ (World Image : Type) read_csv savefig repr_float (w : World),
     read_csv w "avalon_nuclear.csv" = Ok df0 →
     ∃ e, script (Image := Image) read_csv savefig repr_float w = ([], Raise e)).
Proof.
  intros Hwf Hne Hderive Hpm Hall.
  destruct (panic_counts_derived _ _ Hwf Hderive) as (pm' & Hpm' & Hlen & Hpc).
  assert (pm' = pm) as -> by congruence.
  rewrite value_counts_constant with (v := v) in Hpc; [|by intros ->|done].
  rewrite Hlen in Hpc.
  assert (panel2 df = Raise ValueError) as Hp2.
  { rewrite (panel2_counts _ _ Hpc). by rewrite pie_wrong_length. }
  assert (∀ repr_float, ∃ e, draw repr_float df = Raise e) as Hdraw.
  { intros repr_float. unfold draw.
    destruct (info_text repr_float df) as [txt|e]; simpl; [|by eauto].
    rewrite Hp2. simpl. eauto. }
  split_and!; [done | by rewrite pie_wrong_length | done | done |].
  intros World Image read_csv savefig repr_float w Hread.
  destruct (Hdraw repr_float) as [e He]. exists e.
  by eapply script_draw_Raise.
Qed.

Lemma all_normal_derived :
  derive_panic_mode all_normal
  = Ok (setitem all_normal "panic_mode" (IntCol [0; 0])).
Proof. vm_compute. reflexivity. Qed.

Lemma one_category_aborts_witness :
  let df := setitem all_normal "panic_mode" (IntCol [0; 0]) in
  panic_counts df = Ok [(CInt 0, index_len all_normal)] ∧
  pie (values [(CInt 0, index_len all_normal)]) ["Normal"; "Panic Mode"] colors
    = Raise ValueError ∧
  panel2 df = Raise ValueError ∧
  (∀ repr_float, ∃ e, draw repr_float df = Raise e) ∧
  (∀ (World Image : Type) read_csv savefig repr_float (w : World),
     read_csv w "avalon_nuclear.csv" = Ok all_normal →
     ∃ e, script (Image := Image) read_csv savefig repr_float w = ([], Raise e)).
Proof.
  apply (one_category_aborts all_normal _ [0; 0] 0).
  - apply wfb_wf. vm_compute. reflexivity.
  - vm_compute. discriminate.
  - exact all_normal_derived.
  - vm_compute. reflexivity.
  - repeat constructor.
Defined.

(** C2, at a table with more observations in panic mode than normal ones:
    the counts come most frequent first, so the wedge labelled Normal and
    drawn green is the share of [panic_mode = 1] (two thirds, as the float32
    11184811 / 2^24), and the wedge labelled Panic Mode and drawn red is the
    share of [panic_mode = 0] (one third, 11184811 / 2^25). *)
Theorem pie_labels_follow_frequency :
  ∃ df p,
    derive_panic_mode mostly_panic = Ok df ∧
    data df !! "panic_mode" = Some (IntCol [1; 0; 1]) ∧
    panic_counts df = Ok [(CInt 1, 2%nat); (CInt 0, 1%nat)] ∧
    panel2 df = Ok p ∧
    (λ w, (wedge_label w, wedge_color w, this (wedge_frac w))) <$> pie_wedges p
    = [("Normal", "#2ecc71", 11184811 # 16777216);
       ("Panic Mode", "#e74c3c", 11184811 # 33554432)].
Proof.
  eexists _, _. split_and!.
  - vm_compute. reflexivity.
  - vm_compute. reflexivity.
  - vm_compute. reflexivity.
  - vm_compute. reflexivity.
  - vm_compute. reflexivity.
Qed.

(** ** Bars *)

Lemma bar_aligned x h cs :
  length x = length h →
  bar x h cs = Ok (imap (λ i p, mkRect p.1 p.2 (cycle cs i)) (zip x h)).
Proof. intros H. unfold bar, broadcast. by destruct (decide _). Qed.

Lemma imap_rect_size (g : nat → string) (l : list (cell * nat)) :
  rect_size <$> imap (λ i p, mkRect p.1 p.2 (g i)) l = l.*2.
Proof.
  revert g. induction l as [|p l IH]; intros g; [done|].
  rewrite imap_cons. cbn [fmap list_fmap]. f_equal. apply (IH (g ∘ S)).
Qed.

Lemma imap_rect_pos (g : nat → string) (l : list (cell * nat)) :
  rect_pos <$> imap (λ i p, mkRect p.1 p.2 (g i)) l = l.*1.
Proof.
  revert g. induction l as [|p l IH]; intros g; [done|].
  rewrite imap_cons. cbn [fmap list_fmap]. f_equal. apply (IH (g ∘ S)).
Qed.

Lemma length_range n : length (range n) = n.
Proof. unfold range. by rewrite length_fmap, length_seq. Qed.

(** With the y axis inverted, the bar at position 0 is the one on top. *)
Lemma topmost_first r rs :
  rect_pos r = CInt 0 →
  Forall (λ x, ∃ i, rect_pos x = CNat i) rs →
  foldl (λ m x, if above true x m then x else m) r rs = r.
Proof.
  intros Hr. induction 1 as [|x rs [i Hx] _ IH]; cbn [foldl]; [done|].
  replace (above true x r) with false; [exact IH|].
  unfold above. rewrite Hx, Hr. simpl. symmetry. apply Z.ltb_ge. lia.
Qed.

Lemma range_CNat n : Forall (λ x, ∃ i, x = CNat i) (range n).
Proof.
  unfold range. apply Forall_fmap, Forall_true. intros i. by exists i.
Qed.

(** The panel on [atlas]: ten bars, the two countries seen twice first. *)
Example top_countries_atlas :
  ∃ p, panel7 atlas = Ok p ∧
       barh_yticklabels p
       = CStr <$> ["BE"; "JP"; "AT"; "CH"; "DE"; "ES"; "FR"; "GB"; "HU"; "IT"] ∧
       rect_size <$> barh_rects p = [2; 2; 1; 1; 1; 1; 1; 1; 1; 1]%nat.
Proof. eexists. split_and!; vm_compute; reflexivity. Qed.

(** ** The incident panel *)

(** The percentage of a count is computed in binary64 and printed from the
    binary64 value: 3 of 2000 rows is 0.15 per cent, the product falls just
    below it and reads 0.1, not 0.2. *)
Example percent_binary64 :
  format_f 1 (percent_of (float_of_Z 3) 2000) = "0.1" ∧
  format_f 1 (percent_of (float_of_Z 1997) 2000) = "99.9" ∧
  round_half_even (3 * 100 * 10) 2000 = 2.
Proof. split_and!; vm_compute; reflexivity. Qed.

(** C6, as amended. When [incident_occurred] is a column of zeros and ones
    in which both occur, the incident panel has two bars, the larger count
    first; their values add up to the number of rows; and the label of each
    is its count and, on the next line, the count over the number of rows
    times 100, computed in binary64 and printed with one decimal. *)
Theorem incident_panel (df : DataFrame) (xs : list Z) :
  wf df →
  data df !! "incident_occurred" = Some (IntCol xs) →
  Forall (λ x, x = 0 ∨ x = 1) xs →
  0 ∈ xs → 1 ∈ xs →
  ∃ p a b,
    panel4 df = Ok p ∧
    rect_pos <$> bar_rects p = [CStr "No Incident"; CStr "Incident"] ∧
    rect_size <$> bar_rects p = [a; b] ∧
    (b ≤ a)%nat ∧
    (a + b = index_len df)%nat ∧
    text_str <$> bar_texts p
    = (λ v : nat,
         str_int (Z.of_nat v) ++ nl ++ "("
         ++ format_f 1 (PrimFloat.mul
                          (PrimFloat.div (float_of_Z (Z.of_nat v))
                                         (float_of_Z (Z.of_nat (index_len df))))
                          100%float)
         ++ "%)") <$> [a; b].
Proof.
  intros Hwf Hcol Hall H0 H1.
  destruct (value_counts_two xs Hall H0 H1)
    as (k1 & n1 & k2 & n2 & Hvc & Hsum & Hle & _).
  apply Hwf in Hcol as Hlen. unfold col_len in Hlen. simpl in Hlen.
  rewrite length_fmap in Hlen.
  unfold panel4, incident_counts, getitem. rewrite Hcol.
  cbn [mbind result_bind]. rewrite Hvc.
  eexists _, n1, n2. split; [reflexivity|].
  split_and!; try done. lia.
Qed.

Lemma incident_panel_witness :
  ∃ p a b,
    panel4 mostly_normal = Ok p ∧
    rect_pos <$> bar_rects p = [CStr "No Incident"; CStr "Incident"] ∧
    rect_size <$> bar_rects p = [a; b] ∧
    (b ≤ a)%nat ∧
    (a + b = index_len mostly_normal)%nat ∧
    text_str <$> bar_texts p
    = (λ v : nat,
         str_int (Z.of_nat v) ++ nl ++ "("
         ++ format_f 1 (PrimFloat.mul
                          (PrimFloat.div (float_of_Z (Z.of_nat v))
                                         (float_of_Z (Z.of_nat (index_len mostly_normal))))
                          100%float)
         ++ "%)") <$> [a; b].
Proof.
  apply (incident_panel mostly_normal [0; 1; 0]).
  - apply wfb_wf. vm_compute. reflexivity.
  - vm_compute. reflexivity.
  - repeat (constructor; [auto|]). constructor.
  - rewrite !elem_of_cons. auto.
  - rewrite !elem_of_cons. auto.
Defined.

(** C6 as stated fails twice.  On a table without incidents the one count is
    broadcast to both bars, and the two bars of two rows add up to four.  On
    a table of 2000 rows with three incidents the labels read 99.9% and 0.1%:
    the exact quotient 0.15 rounds to 0.2, the binary64 product lies just
    below it. *)
Lemma incident_panel_fails :
  (let df := setitem no_incident "panic_mode" (IntCol [0; 1]) in
   wf no_incident ∧
   derive_panic_mode no_incident = Ok df ∧
   data df !! "incident_occurred" = Some (IntCol [0; 0]) ∧
   Forall (λ x, x = 0 ∨ x = 1) [0; 0] ∧
   (∃ p2, panel2 df = Ok p2) ∧
   ∃ p, panel4 df = Ok p ∧
        rect_size <$> bar_rects p = [2; 2]%nat ∧
        index_len df = 2%nat ∧
        sum_list (rect_size <$> bar_rects p) ≠ index_len df) ∧
  (let xs := (replicate 1997 0 ++ replicate 3 1)%list in
   wf rare_incident ∧
   index_len rare_incident = 2000%nat ∧
   data rare_incident !! "incident_occurred" = Some (IntCol xs) ∧
   Forall (λ x, x = 0 ∨ x = 1) xs ∧
   ∃ p, panel4 rare_incident = Ok p ∧
        rect_size <$> bar_rects p = [1997; 3]%nat ∧
        text_str <$> bar_texts p
        = ["1997" ++ nl ++ "(99.9%)"; "3" ++ nl ++ "(0.1%)"] ∧
        round_half_even (3 * 100 * 10) 2000 = 2 ∧
        round_half_up (3 * 100 * 10) 2000 = 2).
Proof.
  split; split_and!.
  - apply wfb_wf. vm_compute. reflexivity.
  - vm_compute. reflexivity.
  - vm_compute. reflexivity.
  - repeat (constructor; [auto|]). constructor.
  - eexists. vm_compute. reflexivity.
  - eexists. split_and!; [vm_compute; reflexivity | vm_compute; reflexivity
                        | reflexivity | vm_compute; discriminate].
  - apply wfb_wf. vm_compute. reflexivity.
  - reflexivity.
  - vm_compute. reflexivity.
  - apply Forall_app. split; apply Forall_replicate; auto.
  - eexists. split_and!; vm_compute; reflexivity.
Qed.

(** ** The summary box *)

(** Text put in front of [b] leaves every line of [b] but the first as it
    is. *)
Lemma lines_app a b : ∃ l ls, lines (a ++ b) = (l :: ls ++ tail (lines b))%list.
Proof.
  induction a as [|c a (l & ls & IH)]; simpl.
  - destruct b as [|c b]; simpl; [by exists EmptyString, []|].
    destruct (Ascii.eqb c "010"); [by exists EmptyString, [] |].
    destruct (lines b) as [|l ls]; [by exists (String c EmptyString), []|].
    by exists (String c l), [].
  - rewrite IH. destruct (Ascii.eqb c "010").
    + by exists EmptyString, (l :: ls).
    + by exists (String c l), ls.
Qed.

Lemma lines_tail_app a b (L : string) :
  L ∈ tail (lines b) → L ∈ tail (lines (a ++ b)).
Proof.
  intros H. destruct (lines_app a b) as (l & ls & ->). simpl.
  apply elem_of_app. by right.
Qed.

(** The text is built whenever the two columns it reads are there and the
    years can be ordered. *)
Lemma info_text_total repr_float df country year :
  data df !! "country" = Some country →
  data df !! "year" = Some year →
  comparable year = true →
  ∃ txt, info_text repr_float df = Ok txt.
Proof.
  intros Hc Hy Hcmp. unfold info_text, getitem, series_min, series_max.
  rewrite Hc, Hy. cbn [mbind result_bind]. rewrite Hcmp.
  cbn [mbind result_bind]. eauto.
Qed.

(** C3. Whatever the table, the text of the summary box has the line
    [Missing Values: 0]: it is written out in the text, no cell of the table
    is looked at for it. *)
Theorem missing_values_line (repr_float : float → string) (df : DataFrame)
    (txt : string) :
  info_text repr_float df = Ok txt →
  "Missing Values: 0" ∈ lines txt.
Proof.
  unfold info_text. intros H.
  inv_bind H. inv_bind H. inv_bind H. inv_bind H. injection H as <-.
  assert (∀ (L : string) s, L ∈ tail (lines s) → L ∈ lines s) as Htail.
  { intros L s. destruct (lines s); simpl; [done | by right]. }
  apply Htail. do 18 apply lines_tail_app.
  vm_compute. left.
Qed.

Lemma missing_values_line_witness :
  missing_values sample17 = 3%nat ∧
  ∃ txt, info_text repr1 sample17 = Ok txt ∧
         "Missing Values: 0" ∈ lines txt.
Proof.
  split; [vm_compute; reflexivity|].
  eexists. split; [vm_compute; reflexivity|].
  apply (missing_values_line repr1 sample17). vm_compute. reflexivity.
Defined.

(** ** The printed statistics *)

Lemma sum_bits (pm : list Z) :
  Forall (λ v, v = 0 ∨ v = 1) pm →
  foldr Z.add 0 pm = Z.of_nat (length (filter (λ p, p = 1) pm)).
Proof.
  induction 1 as [|v pm Hv _ IH]; [done|].
  rewrite filter_cons. cbn [foldr]. rewrite IH.
  destruct Hv as [-> | ->]; destruct (decide _); try done.
  cbn [length]. lia.
Qed.

Lemma summary_panic_line repr_float df pm :
  data df !! "panic_mode" = Some (IntCol pm) →
  summary_lines repr_float df !! 3%nat
  = Some (Ok ("  Panic mode cases: " ++ str_int (foldr Z.add 0 pm) ++ " ("
              ++ format_f 2 (percent_of (float_of_Z (foldr Z.add 0 pm))
                                        (Z.of_nat (index_len df)))
              ++ "%)")).
Proof. unfold summary_lines, getitem. intros ->. reflexivity. Qed.

Lemma summary_normal_line repr_float df pm :
  data df !! "panic_mode" = Some (IntCol pm) →
  summary_lines repr_float df !! 4%nat
  = Some (Ok ("  Normal cases: "
              ++ str_int (Z.of_nat (index_len df) - foldr Z.add 0 pm) ++ " ("
              ++ format_f 2 (percent_of
                               (float_of_Z (Z.of_nat (index_len df) - foldr Z.add 0 pm))
                               (Z.of_nat (index_len df)))
              ++ "%)")).
Proof. unfold summary_lines, getitem. intros ->. reflexivity. Qed.

(** Printing only adds lines. *)
Lemma print_all_extends args : ∀ stdout,
  ∃ rest, (print_all args stdout).1 = (stdout ++ rest)%list.
Proof.
  induction args as [|[line|e] args IH]; intros stdout; simpl.
  - exists []. by rewrite app_nil_r.
  - destruct (IH (stdout ++ [line])%list) as [rest ->].
    exists (line :: rest). by rewrite <- app_assoc.
  - exists []. by rewrite app_nil_r.
Qed.

Lemma print_all_Ok line args stdout :
  print_all (Ok line :: args) stdout = print_all args (stdout ++ [line])%list.
Proof. reflexivity. Qed.

(** The first five lines, when the fourth and the fifth can be formed. *)
Lemma print_all_five repr_float df l3 l4 :
  summary_lines repr_float df !! 3%nat = Some (Ok l3) →
  summary_lines repr_float df !! 4%nat = Some (Ok l4) →
  ∃ rest,
    (print_all (summary_lines repr_float df) []).1
    = app [ "✓ Visualization saved as 'slide3_data_overview.png'";
            nl ++ "Dataset Statistics:";
            "  Total records: " ++ format_thousands (Z.of_nat (index_len df));
            l3; l4 ] rest.
Proof.
  unfold summary_lines. cbn [lookup list_lookup]. intros [= H3] [= H4].
  rewrite H3, H4. rewrite !print_all_Ok. apply print_all_extends.
Qed.

Section RunFacts.

Context {World Image : Type}.
Variable read_csv : World → string → result DataFrame.
Variable savefig : World → figure → string → result Image.
Variable repr_float : float → string.

(** A run whose figure is drawn and saved prints the statistics of the
    table; they depend on nothing else. *)
Lemma script_prints w df0 df fig img :
  read_csv w "avalon_nuclear.csv" = Ok df0 →
  derive_panic_mode df0 = Ok df →
  draw repr_float df = Ok fig →
  savefig w fig "slide3_data_overview.png" = Ok img →
  (script read_csv savefig repr_float w).1
  = (print_all (summary_lines repr_float df) []).1.
Proof.
  unfold script. intros -> Hderive Hdraw Hsave. cbn [mbind result_bind].
  rewrite Hderive. cbn [mbind result_bind]. rewrite Hdraw.
  cbn [mbind result_bind]. rewrite Hsave. cbn [mbind result_bind].
  by destruct (print_all _ _).
Qed.

(** A run prints nothing at all, or the statistics of the table it loaded. *)
Lemma script_stdout w :
  (script read_csv savefig repr_float w).1 = [] ∨
  ∃ df0 df,
    read_csv w "avalon_nuclear.csv" = Ok df0 ∧
    derive_panic_mode df0 = Ok df ∧
    (script read_csv savefig repr_float w).1
    = (print_all (summary_lines repr_float df) []).1.
Proof.
  destruct (read_csv w "avalon_nuclear.csv") as [df0|e] eqn:Hread.
  2: { left. unfold script. by rewrite Hread. }
  destruct (derive_panic_mode df0) as [df|e] eqn:Hderive.
  2: { left. unfold script. rewrite Hread. cbn [mbind result_bind].
       by rewrite Hderive. }
  destruct (draw repr_float df) as [fig|e] eqn:Hdraw.
  2: { left. by rewrite (script_draw_Raise _ _ _ _ _ _ _ Hread Hderive Hdraw). }
  destruct (savefig w fig "slide3_data_overview.png") as [img|e] eqn:Hsave.
  2: { left. unfold script. rewrite Hread. cbn [mbind result_bind].
       rewrite Hderive. cbn [mbind result_bind]. rewrite Hdraw.
       cbn [mbind result_bind]. by rewrite Hsave. }
  right. exists df0, df. split_and!; [done | done |].
  by eapply script_prints.
Qed.

End RunFacts.
(** C4. On a table of 1,000 rows of which exactly 180 are in panic mode, the
    fourth and the fifth printed line read [Panic mode cases: 180 (18.00%)]
    and [Normal cases: 820 (82.00%)] (each after the two blanks the script
    indents them by), and a run whose figure is drawn and saved prints them
    after the confirmation, the heading and the total. *)
Theorem printed_statistics {World Image : Type}
    (read_csv : World → string → result DataFrame)
    (savefig : World → figure → string → result Image)
    (repr_float : float → string)
    (w : World) (df0 df : DataFrame) (pm : list Z) :
  read_csv w "avalon_nuclear.csv" = Ok df0 →
  derive_panic_mode df0 = Ok df →
  index_len df0 = 1000%nat →
  data df !! "panic_mode" = Some (IntCol pm) →
  length (filter (λ p, p = 1) pm) = 180%nat →
  summary_lines repr_float df !! 3%nat
    = Some (Ok "  Panic mode cases: 180 (18.00%)") ∧
  summary_lines repr_float df !! 4%nat
    = Some (Ok "  Normal cases: 820 (82.00%)") ∧
  ∀ fig img,
    draw repr_float df = Ok fig →
    savefig w fig "slide3_data_overview.png" = Ok img →
    ∃ rest,
      (script read_csv savefig repr_float w).1
      = app [ "✓ Visualization saved as 'slide3_data_overview.png'";
              nl ++ "Dataset Statistics:";
              "  Total records: 1,000";
              "  Panic mode cases: 180 (18.00%)";
              "  Normal cases: 820 (82.00%)" ] rest.
Proof.
  intros Hread Hderive Hrows Hpm Hcount.
  destruct (derived_column _ _ Hderive) as (Hlen & pm' & Hpm' & Hbits).
  assert (pm' = pm) as -> by congruence.
  rewrite Hrows in Hlen.
  pose proof (sum_bits pm Hbits) as Hsum. rewrite Hcount in Hsum.
  assert (summary_lines repr_float df !! 3%nat
          = Some (Ok "  Panic mode cases: 180 (18.00%)")) as H3.
  { rewrite (summary_panic_line _ _ _ Hpm), Hsum, Hlen.
    vm_compute. reflexivity. }
  assert (summary_lines repr_float df !! 4%nat
          = Some (Ok "  Normal cases: 820 (82.00%)")) as H4.
  { rewrite (summary_normal_line _ _ _ Hpm), Hsum, Hlen.
    vm_compute. reflexivity. }
  split_and!; [done | done |].
  intros fig img Hdraw Hsave.
  rewrite (script_prints _ _ _ _ _ _ _ _ Hread Hderive Hdraw Hsave).
  destruct (print_all_five _ _ _ _ H3 H4) as [rest ->].
  exists rest. rewrite Hlen. vm_compute. reflexivity.
Qed.

Lemma thousand_derived : derive_panic_mode thousand = Ok thousand17.
Proof. vm_compute. reflexivity. Qed.

Lemma printed_statistics_witness :
  summary_lines repr1 thousand17 !! 3%nat
    = Some (Ok "  Panic mode cases: 180 (18.00%)") ∧
  summary_lines repr1 thousand17 !! 4%nat
    = Some (Ok "  Normal cases: 820 (82.00%)") ∧
  ∀ fig img,
    draw repr1 thousand17 = Ok fig →
    save_stamped 7%nat fig "slide3_data_overview.png" = Ok img →
    ∃ rest,
      (script (read_const thousand) save_stamped repr1 7%nat).1
      = app [ "✓ Visualization saved as 'slide3_data_overview.png'";
              nl ++ "Dataset Statistics:";
              "  Total records: 1,000";
              "  Panic mode cases: 180 (18.00%)";
              "  Normal cases: 820 (82.00%)" ] rest.
Proof.
  apply (printed_statistics (read_const thousand) save_stamped repr1 7%nat
           thousand thousand17 (replicate 180 1 ++ replicate 820 0)%list).
  - reflexivity.
  - exact thousand_derived.
  - reflexivity.
  - vm_compute. reflexivity.
  - vm_compute. reflexivity.
Defined.

(** The whole output of a run on [thousand]. *)
Example run_thousand :
  (script (read_const thousand) save_stamped repr1 7%nat).1
  = [ "✓ Visualization saved as 'slide3_data_overview.png'";
      nl ++ "Dataset Statistics:";
      "  Total records: 1,000";
      "  Panic mode cases: 180 (18.00%)";
      "  Normal cases: 820 (82.00%)";
      "  Unique countries: 1";
      "  Reactor types: 1" ].
Proof. vm_compute. reflexivity. Qed.

(** C9. Two runs that read the same table from the input file and both get
    to print, print the same lines, whatever else differs between them (the
    clock, the fonts, the bytes of the image). *)
Theorem statistics_reproducible {World Image : Type}
    (read_csv : World → string → result DataFrame)
    (savefig : World → figure → string → result Image)
    (repr_float : float → string)
    (w1 w2 : World) :
  read_csv w1 "avalon_nuclear.csv" = read_csv w2 "avalon_nuclear.csv" →
  (script read_csv savefig repr_float w1).1 ≠ [] →
  (script read_csv savefig repr_float w2).1 ≠ [] →
  (script read_csv savefig repr_float w1).1
  = (script read_csv savefig repr_float w2).1.
Proof.
  intros Hsame H1 H2.
  destruct (script_stdout read_csv savefig repr_float w1)
    as [? | (df0 & df & Hread1 & Hderive1 & ->)]; [done|].
  destruct (script_stdout read_csv savefig repr_float w2)
    as [? | (df0' & df' & Hread2 & Hderive2 & ->)]; [done|].
  rewrite Hread1, Hread2 in Hsame. injection Hsame as ->.
  rewrite Hderive1 in Hderive2. by injection Hderive2 as ->.
Qed.

Lemma statistics_reproducible_witness :
  (script (read_const mostly_normal) save_stamped repr1 1%nat).1
  = (script (read_const mostly_normal) save_stamped repr1 2%nat).1 ∧
  (script (read_const mostly_normal) save_stamped repr1 1%nat).2
  ≠ (script (read_const mostly_normal) save_stamped repr1 2%nat).2.
Proof.
  split.
  - apply (statistics_reproducible (read_const mostly_normal) save_stamped repr1
             1%nat 2%nat).
    + reflexivity.
    + vm_compute. discriminate.
    + vm_compute. discriminate.
  - vm_compute. discriminate.
Defined.

(** ** What a count counts *)

Lemma held_cons k e l :
  held k (e :: l) = ((if key_eqb e.1 k then e.2 else 0) + held k l)%nat.
Proof.
  unfold held. rewrite filter_cons.
  destruct (decide (key_eqb e.1 k = true)) as [->|Hne]; [done|].
  by destruct (key_eqb e.1 k).
Qed.

Lemma bump_held k x acc :
  exact x →
  held k (bump x acc) = (held k acc + (if key_eqb x k then 1 else 0))%nat.
Proof.
  intros Hx. induction acc as [|[k' n] acc IH]; cbn [bump].
  - rewrite held_cons. unfold held. simpl. lia.
  - destruct (key_eqb k' x) eqn:E.
    + apply key_eqb_eq in E as ->; [|done].
      rewrite !held_cons. cbn [fst snd]. destruct (key_eqb x k); lia.
    + rewrite !held_cons, IH. lia.
Qed.

Lemma occurrences_cons k x xs :
  occurrences k (x :: xs)
  = ((if key_eqb x k then 1 else 0) + occurrences k xs)%nat.
Proof.
  unfold occurrences. rewrite filter_cons.
  destruct (decide (key_eqb x k = true)) as [->|Hne]; [done|].
  by destruct (key_eqb x k).
Qed.

Lemma tally_loop_held k xs : ∀ acc,
  Forall exact xs →
  held k (foldl (λ acc x, bump x acc) acc xs)
  = (held k acc + occurrences k xs)%nat.
Proof.
  induction xs as [|x xs IH]; intros acc Hex; cbn [foldl].
  - unfold occurrences. simpl. lia.
  - apply Forall_cons_1 in Hex as [Hx Hex].
    rewrite IH, bump_held, occurrences_cons by done. lia.
Qed.

Lemma tally_held k xs : Forall exact xs → held k (tally xs) = occurrences k xs.
Proof. intros H. unfold tally. by rewrite tally_loop_held. Qed.

(** In a series with distinct exact keys, the count held for a key is the
    count of its entry. *)
Lemma held_entry k n (l : counts) :
  NoDup (index l) → Forall exact (index l) → (k, n) ∈ l → held k l = n.
Proof.
  induction l as [|[k' n'] l IH]; intros Hnd Hex Hin.
  - by apply elem_of_nil in Hin.
  - cbn [index fmap list_fmap fst] in Hnd, Hex.
    apply NoDup_cons in Hnd as [Hk' Hnd].
    apply Forall_cons_1 in Hex as [Hexk Hex].
    rewrite held_cons. cbn [fst snd].
    apply elem_of_cons in Hin as [[= -> ->] | Hin].
    + rewrite (proj2 (key_eqb_eq k' k' Hexk) eq_refl).
      assert (held k' l = 0%nat) as ->; [|lia].
      clear IH. induction l as [|[k2 n2] l IHl]; [done|].
      cbn [index fmap list_fmap fst] in Hk', Hnd, Hex.
      apply not_elem_of_cons in Hk' as [Hne Hk'].
      apply NoDup_cons in Hnd as [_ Hnd].
      apply Forall_cons_1 in Hex as [_ Hex].
      rewrite held_cons. cbn [fst snd].
      destruct (key_eqb k2 k') eqn:E.
      * apply key_eqb_eq in E; [|done]. congruence.
      * by rewrite IHl.
    + assert (k ∈ index l) as Hkin.
      { apply list_elem_of_fmap. by exists (k, n). }
      destruct (key_eqb k' k) eqn:E.
      * apply key_eqb_eq in E as ->; [done|].
        rewrite Forall_forall in Hex. by apply Hex.
      * rewrite IH by done. lia.
Qed.

Lemma discrete_exact c : discrete c → Forall exact (present c).
Proof.
  unfold present. intros Hc. apply Forall_forall. intros x Hx.
  apply list_elem_of_filter in Hx as [Hna Hx].
  destruct c as [xs|xs|xs|xs]; [| |done|]; simpl in Hx;
    apply list_elem_of_fmap in Hx as (y & -> & _); try done.
  by destruct y.
Qed.

(** [value_counts] of a column that is not float64: every value that is
    present has one entry, and its count is the number of cells holding it. *)
Lemma value_counts_spec c :
  discrete c →
  NoDup (index (value_counts c)) ∧
  ∀ k n, (k, n) ∈ value_counts c
         ↔ k ∈ present c ∧ n = occurrences k (present c).
Proof.
  intros Hc. pose proof (discrete_exact c Hc) as Hex.
  destruct (tally_keys (present c) Hex) as [Hnd Hkeys].
  pose proof (value_counts_perm c) as Hp. fold (present c) in Hp.
  assert (∀ k n, (k, n) ∈ tally (present c)
                 → k ∈ present c ∧ n = occurrences k (present c)) as Hfwd.
  { intros k n Hin.
    assert (k ∈ present c) as Hk.
    { apply Hkeys, list_elem_of_fmap. by exists (k, n). }
    split; [done|]. rewrite <- (tally_held k _ Hex). symmetry.
    apply held_entry; [done | | done].
    apply Forall_forall. intros k' Hk'. apply Hkeys in Hk'.
    rewrite Forall_forall in Hex. by apply Hex. }
  split.
  - unfold index. by rewrite Hp.
  - intros k n. rewrite Hp. split; [apply Hfwd|].
    intros [Hk ->]. apply Hkeys, list_elem_of_fmap in Hk as ([k' n'] & Heq & Hin).
    simpl in Heq. subst k'.
    by destruct (Hfwd _ _ Hin) as [_ <-].
Qed.

(** ** Sorting by value *)

Lemma insert_key_perm e l : insert_key e l ≡ₚ e :: l.
Proof.
  induction l as [|e' l IH]; simpl; [done|].
  destruct (key_ltb e.1 e'.1); [done|].
  rewrite IH. apply Permutation_swap.
Qed.

Lemma sort_index_perm l : sort_index l ≡ₚ l.
Proof.
  induction l as [|e l IH]; simpl; [done|].
  by rewrite insert_key_perm, IH.
Qed.

Lemma insert_key_sorted e l :
  (∃ z, e.1 = CInt z) →
  Forall (λ e', ∃ z, e'.1 = CInt z) l →
  StronglySorted int_le l →
  StronglySorted int_le (insert_key e l).
Proof.
  intros [z Hz] Hint. induction 1 as [|e' l Hs IH Hall]; simpl.
  - repeat constructor.
  - apply Forall_cons_1 in Hint as [[z' Hz'] Hint].
    rewrite Hz, Hz'. simpl. destruct (z <? z') eqn:E.
    + apply Z.ltb_lt in E. constructor; [by constructor|].
      constructor; [exists z, z'; split_and!; [done | done | lia] |].
      eapply Forall_impl; [exact Hall|].
      intros b (x & y & Hx & Hy & Hxy). exists z, y.
      rewrite Hz' in Hx. injection Hx as <-. split_and!; [done | done | lia].
    + apply Z.ltb_ge in E. constructor; [by apply IH|].
      rewrite insert_key_perm. constructor; [|done].
      exists z', z. split_and!; [done | done | lia].
Qed.

Lemma sort_index_sorted l :
  Forall (λ e, ∃ z, e.1 = CInt z) l → StronglySorted int_le (sort_index l).
Proof.
  induction 1 as [|e l He Hl IH]; simpl; [constructor|].
  apply insert_key_sorted; [done | | done].
  by rewrite sort_index_perm.
Qed.

Lemma sorted_ascending (l : counts) :
  StronglySorted int_le l → NoDup (index l) → ascending (index l).
Proof.
  induction 1 as [|e l Hs IH Hall]; intros Hnd i j x y Hij Hi Hj; [done|].
  cbn [index fmap list_fmap] in Hnd, Hi, Hj.
  apply NoDup_cons in Hnd as [Hnotin Hnd].
  destruct j as [|j]; [lia|]. simpl in Hj. destruct i as [|i]; simpl in Hi.
  - injection Hi as <-.
    assert (y ∈ index l) as Hy by (by eapply list_elem_of_lookup_2).
    apply list_elem_of_fmap in Hy as (b & -> & Hb).
    rewrite Forall_forall in Hall.
    destruct (Hall b Hb) as (u & v & Hu & Hv & Huv).
    rewrite Hu, Hv. simpl. apply Z.ltb_lt.
    assert (u ≠ v); [|lia]. intros ->. apply Hnotin.
    rewrite Hu, <- Hv. by apply list_elem_of_fmap_2.
  - apply (IH Hnd i j); [lia | done | done].
Qed.

(** ** Counts of an integer column, in the order of the values *)

Lemma occurrences_int z xs :
  occurrences (CInt z) (CInt <$> xs) = length (filter (λ x, x = z) xs).
Proof.
  induction xs as [|x xs IH]; [done|].
  cbn [fmap list_fmap]. rewrite occurrences_cons, filter_cons, IH. simpl.
  destruct (decide (x = z)) as [->|Hne].
  - by rewrite Z.eqb_refl.
  - by destruct (Z.eqb_spec x z).
Qed.

Lemma present_int xs : present (IntCol xs) = CInt <$> xs.
Proof. unfold present. simpl. apply notna_exact, exact_int. Qed.

Lemma sorted_counts_int xs :
  ascending (index (sort_index (value_counts (IntCol xs)))) ∧
  sum_list (values (sort_index (value_counts (IntCol xs)))) = length xs ∧
  ∀ k n, (k, n) ∈ sort_index (value_counts (IntCol xs))
         ↔ ∃ z, k = CInt z ∧ z ∈ xs ∧ n = length (filter (λ x, x = z) xs).
Proof.
  destruct (value_counts_spec (IntCol xs) I) as [Hnd Hspec].
  rewrite present_int in Hspec.
  assert (∀ k n, (k, n) ∈ value_counts (IntCol xs)
                 ↔ ∃ z, k = CInt z ∧ z ∈ xs
                        ∧ n = length (filter (λ x, x = z) xs)) as Hspec'.
  { intros k n. rewrite Hspec, list_elem_of_fmap. split.
    - intros [(z & -> & Hz) ->]. exists z. by rewrite occurrences_int.
    - intros (z & -> & Hz & ->). rewrite occurrences_int. eauto. }
  split_and!.
  - apply sorted_ascending.
    + apply sort_index_sorted, Forall_forall. intros [k n] Hin.
      apply Hspec' in Hin as (z & -> & _). by exists z.
    + unfold index. by rewrite sort_index_perm.
  - unfold values. rewrite sort_index_perm. apply value_counts_int_sum.
  - intros k n. by rewrite sort_index_perm.
Qed.

(** ** The risk-level bars and the records per year *)

Lemma bars_of_counts (l : counts) cs :
  bar (index l) (values l) cs
  = Ok (imap (λ i e, mkRect e.1 e.2 (cycle cs i)) l).
Proof.
  rewrite bar_aligned by (unfold index, values; by rewrite !length_fmap).
  unfold index, values. by rewrite zip_fst_snd.
Qed.

(** X3. With an int64 [true_risk_level] the third panel has one bar per risk
    level that occurs, the levels going up from left to right; the height of
    a bar is the number of rows at its level, so the heights add up to the
    number of rows; the three colours are cycled through; and the text over a
    bar is its height, 50 above its top. *)
Theorem risk_panel (df : DataFrame) (xs : list Z) :
  wf df →
  data df !! "true_risk_level" = Some (IntCol xs) →
  ∃ p,
    panel3 df = Ok p ∧
    ascending (rect_pos <$> bar_rects p) ∧
    sum_list (rect_size <$> bar_rects p) = index_len df ∧
    (∀ z n, (∃ r, r ∈ bar_rects p ∧ rect_pos r = CInt z ∧ rect_size r = n)
            ↔ z ∈ xs ∧ n = length (filter (λ x, x = z) xs)) ∧
    (∀ i r, bar_rects p !! i = Some r →
            (∃ z, rect_pos r = CInt z) ∧
            rect_color r = cycle ["#3498db"; "#f39c12"; "#e74c3c"] i ∧
            bar_texts p !! i
            = Some (mkText (rect_pos r) (CNat (rect_size r + 50))
                           (str_int (Z.of_nat (rect_size r))))).
Proof.
  intros Hwf Hcol.
  destruct (sorted_counts_int xs) as (Hasc & Hsum & Hspec).
  apply Hwf in Hcol as Hlen. unfold col_len in Hlen. simpl in Hlen.
  rewrite length_fmap in Hlen.
  unfold panel3, risk_counts, getitem. rewrite Hcol. cbn [mbind result_bind].
  set (rc := sort_index (value_counts (IntCol xs))) in *.
  rewrite bars_of_counts. cbn [mbind result_bind].
  eexists. split; [reflexivity|]. cbn [bar_rects bar_texts]. split_and!.
  - by rewrite imap_rect_pos.
  - rewrite imap_rect_size. fold (values rc). by rewrite Hsum.
  - intros z n. split.
    + intros (r & Hr & Hpos & Hsize).
      apply elem_of_lookup_imap in Hr as (i & [k m] & -> & Hi).
      simpl in Hpos, Hsize. subst k m.
      apply list_elem_of_lookup_2, Hspec in Hi as (z' & [= <-] & Hz & Hn).
      done.
    + intros [Hz ->].
      assert ((CInt z, length (filter (λ x, x = z) xs)) ∈ rc) as Hin.
      { apply Hspec. eauto. }
      apply list_elem_of_lookup in Hin as [i Hi].
      eexists. split; [by eapply elem_of_lookup_imap_2|]. done.
  - intros i r Hr. rewrite list_lookup_imap in Hr.
    destruct (rc !! i) as [[k m]|] eqn:Hi; [|done]. injection Hr as <-.
    split_and!.
    + apply list_elem_of_lookup_2, Hspec in Hi as (z & -> & _). by exists z.
    + done.
    + by rewrite list_lookup_fmap, Hi.
Qed.

Lemma sample17_wf : wf sample17.
Proof. apply wfb_wf. vm_compute. reflexivity. Qed.

Lemma risk_panel_witness :
  ∃ p,
    panel3 sample17 = Ok p ∧
    ascending (rect_pos <$> bar_rects p) ∧
    sum_list (rect_size <$> bar_rects p) = index_len sample17 ∧
    (∀ z n, (∃ r, r ∈ bar_rects p ∧ rect_pos r = CInt z ∧ rect_size r = n)
            ↔ z ∈ [1; 2; 3] ∧ n = length (filter (λ x, x = z) [1; 2; 3])) ∧
    (∀ i r, bar_rects p !! i = Some r →
            (∃ z, rect_pos r = CInt z) ∧
            rect_color r = cycle ["#3498db"; "#f39c12"; "#e74c3c"] i ∧
            bar_texts p !! i
            = Some (mkText (rect_pos r) (CNat (rect_size r + 50))
                           (str_int (Z.of_nat (rect_size r))))).
Proof.
  apply (risk_panel sample17 [1; 2; 3]).
  - exact sample17_wf.
  - vm_compute. reflexivity.
Defined.

(** X4. With an int64 [year] the line of the sixth panel runs through the
    years that occur, strictly from the earliest to the latest; the value at
    a year is the number of rows of that year, and the values add up to the
    number of rows. *)
Theorem temporal_line_counts (df : DataFrame) (xs : list Z) :
  wf df →
  data df !! "year" = Some (IntCol xs) →
  ∃ yc,
    year_counts df = Ok yc ∧
    ascending (index yc) ∧
    sum_list (values yc) = index_len df ∧
    ∀ k n, (k, n) ∈ yc
           ↔ ∃ y, k = CInt y ∧ y ∈ xs ∧ n = length (filter (λ x, x = y) xs).
Proof.
  intros Hwf Hcol.
  destruct (sorted_counts_int xs) as (Hasc & Hsum & Hspec).
  apply Hwf in Hcol as Hlen. unfold col_len in Hlen. simpl in Hlen.
  rewrite length_fmap in Hlen.
  unfold year_counts, getitem. rewrite Hcol. cbn [mbind result_bind].
  eexists. split; [reflexivity|]. split_and!; [done | by rewrite Hsum | done].
Qed.

Lemma temporal_line_counts_witness :
  ∃ yc,
    year_counts sample17 = Ok yc ∧
    ascending (index yc) ∧
    sum_list (values yc) = index_len sample17 ∧
    ∀ k n, (k, n) ∈ yc
           ↔ ∃ y, k = CInt y ∧ y ∈ [1990; 2001; 1995]
                  ∧ n = length (filter (λ x, x = y) [1990; 2001; 1995]).
Proof.
  apply (temporal_line_counts sample17 [1990; 2001; 1995]).
  - exact sample17_wf.
  - vm_compute. reflexivity.
Defined.

(** ** How deriving the column can end *)

Lemma mapM_Raise {A B} (f : A → result B) (l : list A) (e : exn) :
  (∀ x e', f x = Raise e' → e' = e) →
  Exists (λ x, ∃ e', f x = Raise e') l →
  mapM f l = Raise e.
Proof.
  intros Honly. induction 1 as [x l [e' Hx] | x l _ IH]; simpl.
  - rewrite Hx. simpl. by rewrite (Honly _ _ Hx).
  - destruct (f x) as [y|e'] eqn:Hx; simpl.
    + by rewrite IH.
    + by rewrite (Honly _ _ Hx).
Qed.

Lemma le_scalar_string risk k s :
  CStr s ∈ cells risk → le_scalar risk k = Raise TypeError.
Proof.
  intros Hin. unfold le_scalar. apply mapM_Raise.
  - intros [] e'; simpl; congruence.
  - apply Exists_exists. exists (CStr s). split; [done|]. by exists TypeError.
Qed.

(** X1. Lines 14-17 read the two recommendation columns and the risk level,
    in this order: the first of them that the table lacks ends the run in a
    KeyError for its name; a risk level that holds a string ends it in a
    TypeError; otherwise the column is derived. *)
Theorem derive_outcome (df : DataFrame) :
  (data df !! "avalon_evac_recommendation" = None →
   derive_panic_mode df = Raise (KeyError "avalon_evac_recommendation")) ∧
  (is_Some (data df !! "avalon_evac_recommendation") →
   data df !! "avalon_shutdown_recommendation" = None →
   derive_panic_mode df = Raise (KeyError "avalon_shutdown_recommendation")) ∧
  (is_Some (data df !! "avalon_evac_recommendation") →
   is_Some (data df !! "avalon_shutdown_recommendation") →
   data df !! "true_risk_level" = None →
   derive_panic_mode df = Raise (KeyError "true_risk_level")) ∧
  (∀ risk s,
     is_Some (data df !! "avalon_evac_recommendation") →
     is_Some (data df !! "avalon_shutdown_recommendation") →
     data df !! "true_risk_level" = Some risk →
     CStr s ∈ cells risk →
     derive_panic_mode df = Raise TypeError) ∧
  (∀ risk,
     is_Some (data df !! "avalon_evac_recommendation") →
     is_Some (data df !! "avalon_shutdown_recommendation") →
     data df !! "true_risk_level" = Some risk →
     (∀ s, CStr s ∉ cells risk) →
     ∃ df', derive_panic_mode df = Ok df').
Proof.
  unfold derive_panic_mode, getitem. split_and!.
  - by intros ->.
  - by intros [e ->] ->.
  - by intros [e ->] [s ->] ->.
  - intros risk s [e ->] [sh ->] -> Hin. cbn [mbind result_bind].
    by rewrite (le_scalar_string _ _ _ Hin).
  - intros risk [e He] [sh Hs] Hr Hnum.
    apply (derive_total df e sh risk); [done | done | done |].
    apply Forall_forall. intros x Hx s ->. by apply (Hnum s).
Qed.

(** X2. Deriving the column does not look at a [panic_mode] column the table
    already has, so deriving it a second time changes nothing. *)
Theorem derive_idempotent (df df' : DataFrame) :
  derive_panic_mode df = Ok df' →
  derive_panic_mode df' = Ok df' ∧
  ∀ c, derive_panic_mode (setitem df "panic_mode" c) = Ok df'.
Proof.
  intros H.
  destruct (derive_inv _ _ H) as (ce & cs & cr & low & He & Hs & Hr & Hlow & ->).
  assert (∀ c, derive_panic_mode (setitem df "panic_mode" c)
               = Ok (setitem df "panic_mode"
                       (IntCol (Z.b2z <$> flags ce cs low)))) as Hany.
  { intros c. unfold derive_panic_mode, getitem. cbn [setitem data index_len].
    rewrite !lookup_insert_ne by done. rewrite He, Hs, Hr.
    cbn [mbind result_bind]. rewrite Hlow. cbn [mbind result_bind].
    rewrite lookup_insert_eq. cbn [mbind result_bind astype_int].
    unfold flags, setitem. cbn [data index_len]. by rewrite !insert_insert_eq. }
  split; [apply Hany | exact Hany].
Qed.

Lemma derive_idempotent_witness :
  derive_panic_mode sample17 = Ok sample17 ∧
  ∀ c, derive_panic_mode (setitem sample "panic_mode" c) = Ok sample17.
Proof. apply (derive_idempotent sample sample17). exact derive_sample. Defined.

(** ** When the two-category panels are drawn *)

Lemma nunique_value_counts c : nunique c = length (value_counts c).
Proof. unfold nunique. by rewrite (value_counts_perm c). Qed.

(** X5. The incident panel puts the counts of [incident_occurred] against
    two fixed labels.  Without the column the run ends in a KeyError; with
    two distinct values there is a bar for each count; with one distinct
    value its count, the number of cells that are not missing, is the height
    of both bars, under one text; with none or more than two the call raises
    a ValueError. *)
Theorem incident_panel_outcome (df : DataFrame) :
  (data df !! "incident_occurred" = None →
   panel4 df = Raise (KeyError "incident_occurred")) ∧
  (∀ c, data df !! "incident_occurred" = Some c →
     (nunique c = 2%nat →
      ∃ p, panel4 df = Ok p ∧
           rect_size <$> bar_rects p = values (value_counts c) ∧
           sum_list (rect_size <$> bar_rects p) = length (present c) ∧
           length (bar_texts p) = 2%nat) ∧
     (nunique c = 1%nat →
      ∃ p, panel4 df = Ok p ∧
           rect_size <$> bar_rects p = [length (present c); length (present c)] ∧
           length (bar_texts p) = 1%nat) ∧
     (nunique c ≠ 1%nat → nunique c ≠ 2%nat → panel4 df = Raise ValueError)).
Proof.
  unfold panel4, incident_counts, getitem. split; [by intros ->|].
  intros c ->. cbn [mbind result_bind].
  rewrite nunique_value_counts.
  pose proof (value_counts_sum c) as Hsum. fold (present c) in Hsum.
  destruct (value_counts c) as [|[k1 n1] [|[k2 n2] [|e l]]]; cbn [length].
  - split_and!; [done | done |]. intros _ _. reflexivity.
  - split_and!; [done | | done]. intros _. eexists. split; [reflexivity|].
    simpl in Hsum. rewrite Nat.add_0_r in Hsum. subst n1. done.
  - split_and!; [| done | done]. intros _. eexists. split; [reflexivity|].
    split_and!; [done | by rewrite <- Hsum | done].
  - split_and!; [done | done |]. intros _ _. reflexivity.
Qed.

(** X6. On the table line 17 leaves, the pie of the second panel is drawn
    exactly when both normal observations and observations in panic mode
    occur; it then has two wedges. *)
Theorem pie_drawn_iff (df0 df : DataFrame) (pm : list Z) :
  derive_panic_mode df0 = Ok df →
  data df !! "panic_mode" = Some (IntCol pm) →
  (0 ∈ pm ∧ 1 ∈ pm) ↔ ∃ p, panel2 df = Ok p ∧ length (pie_wedges p) = 2%nat.
Proof.
  intros Hderive Hpm.
  destruct (derived_column _ _ Hderive) as (_ & pm' & Hpm' & Hbits).
  assert (pm' = pm) as -> by congruence.
  assert (panic_counts df = Ok (value_counts (IntCol pm))) as Hpc.
  { unfold panic_counts, getitem. by rewrite Hpm. }
  split.
  - intros [H0 H1].
    destruct (value_counts_two pm Hbits H0 H1)
      as (k1 & n1 & k2 & n2 & Hvc & _).
    rewrite (panel2_counts _ _ Hpc), Hvc. cbn [values fmap list_fmap snd].
    rewrite pie_two. eexists. split; reflexivity.
  - intros (p & Hp & _).
    destruct (panel2_positional _ _ Hp) as (k1 & n1 & k2 & n2 & Hpc' & _ & _).
    rewrite Hpc in Hpc'. injection Hpc' as Hvc.
    destruct (value_counts_int_keys pm) as [Hnd Hkeys].
    rewrite Hvc in Hnd, Hkeys. cbn [index fmap list_fmap fst] in Hnd, Hkeys.
    assert (∀ k, k ∈ [k1; k2] → k = CInt 0 ∨ k = CInt 1) as Hcases.
    { intros k Hk. apply Hkeys, list_elem_of_fmap in Hk as (z & -> & Hz).
      rewrite Forall_forall in Hbits. destruct (Hbits z Hz) as [-> | ->]; auto. }
    assert (k1 ≠ k2) as Hne.
    { apply NoDup_cons in Hnd as [Hnotin _]. intros ->. apply Hnotin. left. }
    assert (∀ z, CInt z ∈ [k1; k2] → z ∈ pm) as Hback.
    { intros z Hz. apply Hkeys, list_elem_of_fmap in Hz as (z' & [= <-] & Hz').
      done. }
    destruct (Hcases k1) as [-> | ->]; [left | |];
      (destruct (Hcases k2) as [-> | ->]; [right; left | |]); try done;
      split; apply Hback; rewrite !elem_of_cons; auto.
Qed.

Lemma mostly_normal_wf : wf mostly_normal.
Proof. apply wfb_wf. vm_compute. reflexivity. Qed.

Lemma pie_drawn_iff_witness :
  (0 ∈ [0; 1; 0] ∧ 1 ∈ [0; 1; 0])
  ↔ ∃ p, panel2 (setitem mostly_normal "panic_mode" (IntCol [0; 1; 0])) = Ok p
         ∧ length (pie_wedges p) = 2%nat.
Proof.
  apply (pie_drawn_iff mostly_normal).
  - exact mostly_normal_derived.
  - vm_compute. reflexivity.
Defined.

(** ** Runs that end normally and runs that do not *)

Lemma panel2_both df pm :
  data df !! "panic_mode" = Some (IntCol pm) →
  Forall (λ v, v = 0 ∨ v = 1) pm → 0 ∈ pm → 1 ∈ pm →
  ∃ p, panel2 df = Ok p.
Proof.
  intros Hpm Hbits H0 H1.
  destruct (value_counts_two pm Hbits H0 H1) as (k1 & n1 & k2 & n2 & Hvc & _).
  unfold panel2, panic_counts, getitem. rewrite Hpm. cbn [mbind result_bind].
  rewrite Hvc. cbn [values fmap list_fmap snd]. rewrite pie_two. eauto.
Qed.

Lemma panel3_drawn df c :
  data df !! "true_risk_level" = Some c → ∃ p, panel3 df = Ok p.
Proof.
  intros Hc. unfold panel3, risk_counts, getitem. rewrite Hc.
  cbn [mbind result_bind]. rewrite bars_of_counts. eauto.
Qed.

Lemma panel4_drawn df c :
  data df !! "incident_occurred" = Some c →
  nunique c = 1%nat ∨ nunique c = 2%nat →
  ∃ p, panel4 df = Ok p.
Proof.
  intros Hc Hn. unfold panel4, incident_counts, getitem. rewrite Hc.
  cbn [mbind result_bind]. rewrite nunique_value_counts in Hn.
  destruct (value_counts c) as [|e1 [|e2 [|e3 l]]]; simpl in Hn;
    [lia | | | lia]; eauto.
Qed.

Lemma panel5_drawn df :
  Forall (λ k, ∃ c, data df !! k = Some c ∧ numeric c = true) external_vars →
  ∃ p, panel5 df = Ok p.
Proof.
  intros H. unfold external_vars in H.
  apply Forall_cons_1 in H as [(c1 & H1 & N1) H].
  apply Forall_cons_1 in H as [(c2 & H2 & N2) H].
  apply Forall_cons_1 in H as [(c3 & H3 & N3) _].
  unfold panel5, external_vars, getitem. cbn [mapM]. rewrite H1, H2, H3.
  cbn [mbind result_bind mret result_ret].
  unfold boxplot. cbn [length forallb]. rewrite N1, N2, N3.
  destruct (decide _); [|done]. simpl. eauto.
Qed.

Lemma panel7_drawn df c :
  data df !! "country" = Some c → ∃ p, panel7 df = Ok p.
Proof.
  intros Hc. unfold panel7, country_panel, top_countries, getitem. rewrite Hc.
  cbn [mbind result_bind]. rewrite bar_aligned; [eauto|].
  unfold values. by rewrite length_range, length_fmap.
Qed.

(** What the figure needs of the table line 17 leaves. *)
Lemma draw_total repr_float df pm country year inc :
  data df !! "panic_mode" = Some (IntCol pm) →
  Forall (λ v, v = 0 ∨ v = 1) pm → 0 ∈ pm → 1 ∈ pm →
  data df !! "country" = Some country →
  data df !! "year" = Some year → comparable year = true →
  is_Some (data df !! "true_risk_level") →
  data df !! "incident_occurred" = Some inc →
  nunique inc = 1%nat ∨ nunique inc = 2%nat →
  Forall (λ k, ∃ c, data df !! k = Some c ∧ numeric c = true) external_vars →
  ∃ fig, draw repr_float df = Ok fig.
Proof.
  intros Hpm Hbits H0 H1 Hc Hy Hcmp [risk Hr] Hi Hn Hext.
  destruct (info_text_total repr_float df _ _ Hc Hy Hcmp) as [txt Htxt].
  destruct (panel2_both _ _ Hpm Hbits H0 H1) as [p2 Hp2].
  destruct (panel3_drawn _ _ Hr) as [p3 Hp3].
  destruct (panel4_drawn _ _ Hi Hn) as [p4 Hp4].
  destruct (panel5_drawn _ Hext) as [p5 Hp5].
  destruct (panel7_drawn _ _ Hc) as [p7 Hp7].
  unfold draw. rewrite Htxt, Hp2, Hp3, Hp4, Hp5. cbn [mbind result_bind].
  unfold year_counts, getitem. rewrite Hy. cbn [mbind result_bind].
  rewrite Hp7. cbn [mbind result_bind]. eauto.
Qed.

Lemma draw_reads_country repr_float df fig :
  draw repr_float df = Ok fig → is_Some (data df !! "country").
Proof.
  unfold draw. intros H. inv_bind H. unfold info_text in Ha. inv_bind Ha.
  apply getitem_Ok in Ha0. eauto.
Qed.

Lemma print_all_Oks (ls : list string) : ∀ stdout,
  print_all (Ok <$> ls) stdout = ((stdout ++ ls)%list, Ok ()).
Proof.
  induction ls as [|l ls IH]; intros stdout; simpl.
  - by rewrite app_nil_r.
  - rewrite IH. by rewrite <- app_assoc.
Qed.

Lemma print_all_app (ls : list string) rest : ∀ stdout,
  print_all ((Ok <$> ls) ++ rest)%list stdout = print_all rest (stdout ++ ls)%list.
Proof.
  induction ls as [|l ls IH]; intros stdout; simpl.
  - by rewrite app_nil_r.
  - rewrite IH. by rewrite <- app_assoc.
Qed.

(** The first six lines can be formed once the figure is drawn. *)
Lemma summary_six repr_float df pm country :
  data df !! "panic_mode" = Some (IntCol pm) →
  data df !! "country" = Some country →
  ∃ ls, length ls = 6%nat ∧
        ls !! 0%nat = Some "✓ Visualization saved as 'slide3_data_overview.png'" ∧
        summary_lines repr_float df
        = app (Ok <$> ls)
              [c ← getitem df "reactor_type_code";
               Ok ("  Reactor types: " ++ str_int (Z.of_nat (nunique c)))].
Proof.
  intros Hpm Hc. unfold summary_lines, getitem at 1 2 3. rewrite Hpm, Hc.
  cbn [mbind result_bind series_sum percent to_float rsub].
  eexists [_; _; _; _; _; _]. split_and!; reflexivity.
Qed.
Section RunOutcomes.

Context {World Image : Type}.
Variable read_csv : World → string → result DataFrame.
Variable savefig : World → figure → string → result Image.
Variable repr_float : float → string.

(** A run ends before anything is printed, or it has loaded, derived, drawn
    and saved, and goes on to print. *)
Lemma script_cases w :
  (∃ e, script read_csv savefig repr_float w = ([], Raise e)) ∨
  ∃ df0 df fig img,
    read_csv w "avalon_nuclear.csv" = Ok df0 ∧
    derive_panic_mode df0 = Ok df ∧
    draw repr_float df = Ok fig ∧
    savefig w fig "slide3_data_overview.png" = Ok img ∧
    script read_csv savefig repr_float w
    = ((print_all (summary_lines repr_float df) []).1,
       (print_all (summary_lines repr_float df) []).2 ≫= λ _, Ok (df, img)).
Proof.
  unfold script.
  destruct (read_csv w _) as [df0|e] eqn:Hread;
    cbn [mbind result_bind]; [|by eauto].
  destruct (derive_panic_mode df0) as [df|e] eqn:Hderive;
    cbn [mbind result_bind]; [|by eauto].
  destruct (draw repr_float df) as [fig|e] eqn:Hdraw;
    cbn [mbind result_bind]; [|by eauto].
  destruct (savefig w fig _) as [img|e] eqn:Hsave;
    cbn [mbind result_bind]; [|by eauto].
  right. exists df0, df, fig, img. split_and!; try done.
  by destruct (print_all _ _).
Qed.

Lemma print_all_first df :
  ∃ rest, (print_all (summary_lines repr_float df) []).1
          = "✓ Visualization saved as 'slide3_data_overview.png'" :: rest.
Proof.
  unfold summary_lines. rewrite print_all_Ok.
  destruct (print_all_extends
              (tail (summary_lines repr_float df))
              ["✓ Visualization saved as 'slide3_data_overview.png'"])
    as [rest Hrest].
  exists rest. exact Hrest.
Qed.

(** X9. A run prints only after the figure has been saved: its output is
    not empty exactly when the table was loaded, the column derived, the
    figure drawn and the image written; and the first line it prints is the
    confirmation of that. *)
Theorem prints_after_saving (w : World) :
  ((script read_csv savefig repr_float w).1 ≠ []
   ↔ ∃ df0 df fig img,
       read_csv w "avalon_nuclear.csv" = Ok df0 ∧
       derive_panic_mode df0 = Ok df ∧
       draw repr_float df = Ok fig ∧
       savefig w fig "slide3_data_overview.png" = Ok img) ∧
  ∀ line, (script read_csv savefig repr_float w).1 !! 0%nat = Some line →
          line = "✓ Visualization saved as 'slide3_data_overview.png'".
Proof.
  split; [split|].
  - intros Hne.
    destruct (script_cases w) as [[e He] | (df0 & df & fig & img & H)].
    + rewrite He in Hne. done.
    + exists df0, df, fig, img. tauto.
  - intros (df0 & df & fig & img & Hread & Hderive & Hdraw & Hsave).
    rewrite (script_prints read_csv savefig repr_float
               _ _ _ _ _ Hread Hderive Hdraw Hsave).
    by destruct (print_all_first df) as [rest ->].
  - intros line Hline.
    destruct (script_cases w)
      as [[e He] | (df0 & df & fig & img & Hread & Hderive & Hdraw & Hsave & _)].
    + rewrite He in Hline. done.
    + rewrite (script_prints read_csv savefig repr_float
                 _ _ _ _ _ Hread Hderive Hdraw Hsave) in Hline.
      destruct (print_all_first df) as [rest Hrest]. rewrite Hrest in Hline.
      by injection Hline as <-.
Qed.

(** X7. A run ends normally, with seven lines printed and the table as line
    17 left it, when: the file is read; the column is derived and holds both
    zeros and ones; the table has the country, the reactor type, the year (in
    a column that can be ordered), the incidents (one or two distinct values)
    and the three external-pressure columns, each of them numeric (int64 or
    float64, or the boxplot raises); and the figure can be written. *)
Theorem run_completes (w : World) (df0 df : DataFrame) (pm : list Z)
    (year inc : column) :
  read_csv w "avalon_nuclear.csv" = Ok df0 →
  derive_panic_mode df0 = Ok df →
  data df !! "panic_mode" = Some (IntCol pm) →
  0 ∈ pm → 1 ∈ pm →
  data df !! "year" = Some year → comparable year = true →
  data df !! "incident_occurred" = Some inc →
  nunique inc = 1%nat ∨ nunique inc = 2%nat →
  is_Some (data df !! "country") →
  is_Some (data df !! "reactor_type_code") →
  Forall (λ k, ∃ c, data df !! k = Some c ∧ numeric c = true) external_vars →
  (∀ fig, ∃ img, savefig w fig "slide3_data_overview.png" = Ok img) →
  ∃ stdout img,
    script read_csv savefig repr_float w = (stdout, Ok (df, img)) ∧
    length stdout = 7%nat.
Proof.
  intros Hread Hderive Hpm H0 H1 Hy Hcmp Hi Hn [country Hc] [reactor Hreactor]
    Hext Hsave.
  destruct (derived_column _ _ Hderive) as (_ & pm' & Hpm' & Hbits).
  assert (pm' = pm) as -> by congruence.
  assert (is_Some (data df !! "true_risk_level")) as Hrisk.
  { destruct (derive_inv _ _ Hderive) as (? & ? & cr & ? & _ & _ & Hr & _ & ->).
    exists cr. cbn [setitem data]. by rewrite lookup_insert_ne. }
  destruct (draw_total repr_float df pm country year inc) as [fig Hdraw];
    try done.
  destruct (Hsave fig) as [img Himg].
  destruct (summary_six repr_float df pm country Hpm Hc)
    as (ls & Hlen & _ & Hlines).
  unfold script. rewrite Hread. cbn [mbind result_bind].
  rewrite Hderive. cbn [mbind result_bind]. rewrite Hdraw.
  cbn [mbind result_bind]. rewrite Himg. cbn [mbind result_bind].
  rewrite Hlines, print_all_app. unfold getitem. rewrite Hreactor.
  cbn [mbind result_bind print_all]. eexists _, img. split; [reflexivity|].
  rewrite !length_app, Hlen. reflexivity.
Qed.

(** X8. The reactor type is read only by the last [print].  When the table
    lacks it and all else goes well, the image is written and six lines are
    printed, the confirmation first, before the run ends in a KeyError for
    [reactor_type_code]. *)
Theorem reactor_type_missing (w : World) (df0 df : DataFrame) (fig : figure)
    (img : Image) :
  read_csv w "avalon_nuclear.csv" = Ok df0 →
  derive_panic_mode df0 = Ok df →
  draw repr_float df = Ok fig →
  savefig w fig "slide3_data_overview.png" = Ok img →
  data df !! "reactor_type_code" = None →
  ∃ stdout,
    script read_csv savefig repr_float w
    = (stdout, Raise (KeyError "reactor_type_code")) ∧
    length stdout = 6%nat ∧
    stdout !! 0%nat = Some "✓ Visualization saved as 'slide3_data_overview.png'".
Proof.
  intros Hread Hderive Hdraw Hsave Hnone.
  destruct (derived_column _ _ Hderive) as (_ & pm & Hpm & _).
  destruct (draw_reads_country _ _ _ Hdraw) as [country Hc].
  destruct (summary_six repr_float df pm country Hpm Hc)
    as (ls & Hlen & Hfirst & Hlines).
  unfold script. rewrite Hread. cbn [mbind result_bind].
  rewrite Hderive. cbn [mbind result_bind]. rewrite Hdraw.
  cbn [mbind result_bind]. rewrite Hsave. cbn [mbind result_bind].
  rewrite Hlines, print_all_app. unfold getitem. rewrite Hnone.
  cbn [mbind result_bind print_all]. exists ls. done.
Qed.

End RunOutcomes.
Lemma run_completes_witness :
  ∃ stdout img,
    script (read_const mostly_normal) save_stamped repr1 7%nat
    = (stdout, Ok (setitem mostly_normal "panic_mode" (IntCol [0; 1; 0]), img)) ∧
    length stdout = 7%nat.
Proof.
  apply (run_completes (read_const mostly_normal) save_stamped repr1 7%nat
           mostly_normal _ [0; 1; 0] (IntCol [2000; 2000; 2000]) (IntCol [0; 1; 0])).
  - reflexivity.
  - exact mostly_normal_derived.
  - vm_compute. reflexivity.
  - rewrite !elem_of_cons. auto.
  - rewrite !elem_of_cons. auto.
  - vm_compute. reflexivity.
  - reflexivity.
  - vm_compute. reflexivity.
  - right. vm_compute. reflexivity.
  - eexists. vm_compute. reflexivity.
  - eexists. vm_compute. reflexivity.
  - repeat (constructor;
              [eexists; split; [vm_compute; reflexivity | reflexivity]|]).
    constructor.
  - intros fig. eexists. reflexivity.
Defined.

Lemma reactor_type_missing_witness :
  ∃ stdout,
    script (read_const no_reactor) save_stamped repr1 7%nat
    = (stdout, Raise (KeyError "reactor_type_code")) ∧
    length stdout = 6%nat ∧
    stdout !! 0%nat = Some "✓ Visualization saved as 'slide3_data_overview.png'".
Proof.
  eapply (reactor_type_missing (read_const no_reactor) save_stamped repr1 7%nat
            no_reactor no_reactor17).
  - reflexivity.
  - vm_compute. reflexivity.
  - vm_compute. reflexivity.
  - reflexivity.
  - vm_compute. reflexivity.
Defined.

(** ** The time span of the summary box *)

Lemma append_assoc (a b c : string) : (a ++ b) ++ c = a ++ (b ++ c).
Proof.
  induction a as [|x a IH]; [reflexivity|].
  change (String x ((a ++ b) ++ c) = String x (a ++ (b ++ c))).
  by rewrite IH.
Qed.

Lemma ends_with_here (t : string) : ends_with t t.
Proof. by exists EmptyString. Qed.

Lemma ends_with_app (a x t : string) : ends_with x t → ends_with (a ++ x) t.
Proof. intros [p ->]. exists (a ++ p). by rewrite append_assoc. Qed.

(** The least and the greatest of a non-empty int64 series. *)
Lemma extremum_min (a : Z) (ys : list Z) :
  ∃ m, extremum key_ltb (CInt <$> a :: ys) = CInt m ∧
       m ∈ a :: ys ∧ ∀ y, y ∈ a :: ys → m ≤ y.
Proof.
  cbn [fmap list_fmap extremum]. revert a.
  induction ys as [|y ys IH]; intros a; cbn [fmap list_fmap foldl].
  - exists a. split_and!; [done | left |].
    intros y Hy. apply list_elem_of_singleton in Hy as ->. lia.
  - cbn [key_ltb]. destruct (y <? a) eqn:E.
    + apply Z.ltb_lt in E. destruct (IH y) as (m & -> & Hin & Hle).
      exists m. split_and!; [done | by right |].
      intros z Hz. apply elem_of_cons in Hz as [-> | Hz]; [|by apply Hle].
      specialize (Hle y (ltac:(left))). lia.
    + apply Z.ltb_ge in E. destruct (IH a) as (m & -> & Hin & Hle).
      exists m. split_and!; [done | |].
      * apply elem_of_cons in Hin as [-> | Hin]; [left | by right; right].
      * intros z Hz. rewrite !elem_of_cons in Hz.
        destruct Hz as [-> | [-> | Hz]].
        -- apply Hle. left.
        -- specialize (Hle a (ltac:(left))). lia.
        -- apply Hle. by right.
Qed.

Lemma extremum_max (a : Z) (ys : list Z) :
  ∃ m, extremum (λ x y, key_ltb y x) (CInt <$> a :: ys) = CInt m ∧
       m ∈ a :: ys ∧ ∀ y, y ∈ a :: ys → y ≤ m.
Proof.
  cbn [fmap list_fmap extremum]. revert a.
  induction ys as [|y ys IH]; intros a; cbn [fmap list_fmap foldl].
  - exists a. split_and!; [done | left |].
    intros y Hy. apply list_elem_of_singleton in Hy as ->. lia.
  - cbn [key_ltb]. destruct (a <? y) eqn:E.
    + apply Z.ltb_lt in E. destruct (IH y) as (m & -> & Hin & Hle).
      exists m. split_and!; [done | by right |].
      intros z Hz. apply elem_of_cons in Hz as [-> | Hz]; [|by apply Hle].
      specialize (Hle y (ltac:(left))). lia.
    + apply Z.ltb_ge in E. destruct (IH a) as (m & -> & Hin & Hle).
      exists m. split_and!; [done | |].
      * apply elem_of_cons in Hin as [-> | Hin]; [left | by right; right].
      * intros z Hz. rewrite !elem_of_cons in Hz.
        destruct Hz as [-> | [-> | Hz]].
        -- apply Hle. left.
        -- specialize (Hle a (ltac:(left))). lia.
        -- apply Hle. by right.
Qed.

(** X10. With an int64 [year] on a table that is not empty, the summary box
    ends in the time-span line and the missing-values line, and the span
    runs from the earliest to the latest year of the table. *)
Theorem time_span (repr_float : float → string) (df : DataFrame)
    (years : list Z) :
  is_Some (data df !! "country") →
  data df !! "year" = Some (IntCol years) →
  years ≠ [] →
  ∃ txt lo hi,
    info_text repr_float df = Ok txt ∧
    ends_with txt ("Time Span: " ++ str_int lo ++ "–" ++ str_int hi ++ nl
                   ++ "Missing Values: 0" ++ nl) ∧
    lo ∈ years ∧ hi ∈ years ∧
    ∀ y, y ∈ years → lo ≤ y ≤ hi.
Proof.
  intros [country Hc] Hy Hne.
  destruct years as [|a ys]; [done|].
  destruct (extremum_min a ys) as (lo & Hlo & Hlo_in & Hlo_le).
  destruct (extremum_max a ys) as (hi & Hhi & Hhi_in & Hhi_le).
  unfold info_text, getitem, series_min, series_max. rewrite Hc, Hy.
  cbn [mbind result_bind comparable].
  change (filter (λ x, notna x = true) (cells (IntCol (a :: ys))))
    with (present (IntCol (a :: ys))).
  rewrite present_int, Hlo, Hhi. cbn [mbind result_bind py_str].
  eexists _, lo, hi. split; [reflexivity|]. split_and!; try done.
  - do 14 apply ends_with_app. apply ends_with_here.
  - intros y Hin. split; [by apply Hlo_le | by apply Hhi_le].
Qed.

Lemma time_span_witness :
  ∃ txt lo hi,
    info_text repr1 sample17 = Ok txt ∧
    ends_with txt ("Time Span: " ++ str_int lo ++ "–" ++ str_int hi ++ nl
                   ++ "Missing Values: 0" ++ nl) ∧
    lo ∈ [1990; 2001; 1995] ∧ hi ∈ [1990; 2001; 1995] ∧
    ∀ y, y ∈ [1990; 2001; 1995] → lo ≤ y ≤ hi.
Proof.
  apply (time_span repr1 sample17 [1990; 2001; 1995]).
  - eexists. vm_compute. reflexivity.
  - vm_compute. reflexivity.
  - discriminate.
Defined.

(** ** What the listed countries and the printed numbers count *)

(** X11. When [country] is not a float column, the countries listed in the
    seventh panel are distinct; the count of each is the number of rows of
    that country; and a country that is not listed (there are then ten
    listed) has no more rows than any listed one. *)
Theorem top_countries_counts (df : DataFrame) (c : column) :
  discrete c →
  data df !! "country" = Some c →
  ∃ tc,
    top_countries df = Ok tc ∧
    NoDup (index tc) ∧
    (∀ k n, (k, n) ∈ tc → k ∈ present c ∧ n = occurrences k (present c)) ∧
    (∀ k, k ∈ present c → k ∉ index tc →
          length tc = 10%nat ∧
          ∀ e, e ∈ tc → (occurrences k (present c) ≤ e.2)%nat).
Proof.
  intros Hd Hc. destruct (value_counts_spec c Hd) as [Hnd Hspec].
  pose proof (value_counts_sorted c) as Hsorted.
  unfold top_countries, getitem. rewrite Hc. cbn [mbind result_bind].
  eexists. split; [reflexivity|]. unfold head. split_and!.
  - unfold index in *. rewrite fmap_take.
    rewrite <- (take_drop 10 (value_counts c).*1) in Hnd.
    by apply list.NoDup_app in Hnd as [Hnd _].
  - intros k n Hin. apply Hspec.
    apply elem_of_take in Hin as (i & Hi & _). by eapply list_elem_of_lookup_2.
  - intros k Hk Hout.
    assert ((k, occurrences k (present c)) ∈ value_counts c) as Hin
      by (by apply Hspec).
    apply list_elem_of_lookup in Hin as [j Hj].
    assert (10 ≤ j)%nat as Hj10.
    { destruct (decide (j < 10)%nat) as [Hlt|]; [|lia].
      exfalso. apply Hout. apply list_elem_of_fmap.
      exists (k, occurrences k (present c)). split; [done|].
      apply elem_of_take. eauto. }
    split.
    + rewrite length_take. apply lookup_lt_Some in Hj. lia.
    + intros e He. apply elem_of_take in He as (i & Hi & Hi10).
      apply (Hsorted i j e.2 (occurrences k (present c))); [lia | |];
        unfold values; rewrite list_lookup_fmap.
      * by rewrite Hi.
      * by rewrite Hj.
Qed.

Lemma top_countries_counts_witness :
  let c := ObjCol (Some <$> ["AT"; "BE"; "CH"; "BE"; "DE"; "ES"; "FR"; "GB"; "HU";
                             "IT"; "JP"; "KR"; "JP"]) in
  ∃ tc,
    top_countries atlas = Ok tc ∧
    NoDup (index tc) ∧
    (∀ k n, (k, n) ∈ tc → k ∈ present c ∧ n = occurrences k (present c)) ∧
    (∀ k, k ∈ present c → k ∉ index tc →
          length tc = 10%nat ∧
          ∀ e, e ∈ tc → (occurrences k (present c) ≤ e.2)%nat).
Proof.
  apply (top_countries_counts atlas).
  - exact I.
  - vm_compute. reflexivity.
Defined.

(** The number of distinct values of a column that is not float64. *)
Lemma nunique_distinct c (l : list cell) :
  discrete c → NoDup l → (∀ k, k ∈ l ↔ k ∈ present c) → nunique c = length l.
Proof.
  intros Hd Hnd Hin.
  destruct (tally_keys (present c) (discrete_exact c Hd)) as [Hnd' Hin'].
  unfold nunique. fold (present c).
  rewrite <- (length_fmap fst (tally (present c))).
  apply Permutation_length, NoDup_Permutation; [done | done |].
  intros k. by rewrite Hin, <- Hin'.
Qed.

(** X12. The last two lines show how many different countries and reactor
    types the table has, missing cells left aside: for any list without
    repetition of the countries (reactor types) that occur, the number
    printed is its length. *)
Theorem distinct_counts_printed (repr_float : float → string) (df : DataFrame)
    (country reactor : column) (countries reactors : list cell) :
  data df !! "country" = Some country →
  data df !! "reactor_type_code" = Some reactor →
  discrete country → discrete reactor →
  NoDup countries → (∀ k, k ∈ countries ↔ k ∈ present country) →
  NoDup reactors → (∀ k, k ∈ reactors ↔ k ∈ present reactor) →
  summary_lines repr_float df !! 5%nat
    = Some (Ok ("  Unique countries: " ++ str_int (Z.of_nat (length countries)))) ∧
  summary_lines repr_float df !! 6%nat
    = Some (Ok ("  Reactor types: " ++ str_int (Z.of_nat (length reactors)))).
Proof.
  intros Hc Hr Hdc Hdr Hndc Hinc Hndr Hinr.
  unfold summary_lines, getitem. rewrite Hc, Hr. cbn [lookup list_lookup].
  cbn [mbind result_bind].
  by rewrite (nunique_distinct country countries),
             (nunique_distinct reactor reactors).
Qed.

Lemma distinct_counts_printed_witness :
  summary_lines repr1 sample17 !! 5%nat
    = Some (Ok ("  Unique countries: "
                ++ str_int (Z.of_nat (length [CStr "FR"; CStr "US"])))) ∧
  summary_lines repr1 sample17 !! 6%nat
    = Some (Ok ("  Reactor types: "
                ++ str_int (Z.of_nat (length [CStr "PWR"; CStr "BWR"])))).
Proof.
  apply (distinct_counts_printed repr1 sample17
           (ObjCol [Some "FR"; Some "US"; Some "FR"])
           (ObjCol [Some "PWR"; None; Some "BWR"])).
  - vm_compute. reflexivity.
  - vm_compute. reflexivity.
  - exact I.
  - exact I.
  - repeat (apply NoDup_cons_2;
              [rewrite ?elem_of_cons, elem_of_nil; intros H;
               decompose [or] H; first [discriminate | contradiction] |]).
    apply NoDup_nil_2.
  - intros k.
    replace (present (ObjCol [Some "FR"; Some "US"; Some "FR"]))
      with [CStr "FR"; CStr "US"; CStr "FR"] by (vm_compute; reflexivity).
    rewrite !elem_of_cons, elem_of_nil. tauto.
  - repeat (apply NoDup_cons_2;
              [rewrite ?elem_of_cons, elem_of_nil; intros H;
               decompose [or] H; first [discriminate | contradiction] |]).
    apply NoDup_nil_2.
  - intros k.
    replace (present (ObjCol [Some "PWR"; None; Some "BWR"]))
      with [CStr "PWR"; CStr "BWR"] by (vm_compute; reflexivity).
    rewrite !elem_of_cons, elem_of_nil. tauto.
Defined.

(** ** A table without rows *)

(** X13. On a table without rows the column is derived whenever the three
    columns it reads are there; the counts of [panic_mode] are then empty,
    the pie gets no value for its two labels and raises, and the run ends in
    an exception with nothing printed. *)
Theorem empty_table_aborts {World Image : Type}
    (read_csv : World → string → result DataFrame)
    (savefig : World → figure → string → result Image)
    (repr_float : float → string) (w : World) (df0 : DataFrame) :
  read_csv w "avalon_nuclear.csv" = Ok df0 →
  wf df0 →
  index_len df0 = 0%nat →
  is_Some (data df0 !! "avalon_evac_recommendation") →
  is_Some (data df0 !! "avalon_shutdown_recommendation") →
  is_Some (data df0 !! "true_risk_level") →
  ∃ df,
    derive_panic_mode df0 = Ok df ∧
    data df !! "panic_mode" = Some (IntCol []) ∧
    panic_counts df = Ok [] ∧
    panel2 df = Raise ValueError ∧
    ∃ e, script read_csv savefig repr_float w = ([], Raise e).
Proof.
  intros Hread Hwf Hlen [ce He] [cs Hs] [cr Hr].
  destruct (derive_total df0 ce cs cr He Hs Hr) as [df Hderive].
  { apply Hwf in Hr. unfold col_len in Hr. rewrite Hlen in Hr.
    apply nil_length_inv in Hr. rewrite Hr. constructor. }
  exists df. split; [done|].
  destruct (panic_counts_derived _ _ Hwf Hderive) as (pm & Hpm & Hpmlen & Hpc).
  rewrite Hlen in Hpmlen. apply nil_length_inv in Hpmlen. subst pm.
  change (value_counts (IntCol [])) with (@nil (cell * nat)) in Hpc.
  assert (panel2 df = Raise ValueError) as Hp2.
  { rewrite (panel2_counts _ _ Hpc). by rewrite pie_wrong_length. }
  split_and!; [done | done | done |].
  assert (∃ e, draw repr_float df = Raise e) as [e Hdraw].
  { unfold draw. destruct (info_text repr_float df) as [txt|e]; simpl; [|by eauto].
    rewrite Hp2. simpl. eauto. }
  exists e. by eapply script_draw_Raise.
Qed.

Lemma empty_table_aborts_witness :
  ∃ df,
    derive_panic_mode no_rows = Ok df ∧
    data df !! "panic_mode" = Some (IntCol []) ∧
    panic_counts df = Ok [] ∧
    panel2 df = Raise ValueError ∧
    ∃ e, script (read_const no_rows) save_stamped repr1 7%nat = ([], Raise e).
Proof.
  apply (empty_table_aborts (read_const no_rows) save_stamped repr1 7%nat no_rows).
  - reflexivity.
  - apply wfb_wf. vm_compute. reflexivity.
  - reflexivity.
  - eexists. vm_compute. reflexivity.
  - eexists. vm_compute. reflexivity.
  - eexists. vm_compute. reflexivity.
Defined.

(** ** The top countries, whatever the order of equal counts *)

Lemma arrangement_value_counts c : arrangement c (value_counts c).
Proof. split; [apply value_counts_perm | apply value_counts_sorted]. Qed.

Lemma arrangement_spec c arr :
  discrete c → arrangement c arr →
  NoDup (index arr) ∧
  ∀ k n, (k, n) ∈ arr ↔ k ∈ present c ∧ n = occurrences k (present c).
Proof.
  intros Hd [Hp _]. destruct (value_counts_spec c Hd) as [Hnd Hspec].
  assert (arr ≡ₚ value_counts c) as Hp'.
  { rewrite Hp. symmetry. apply value_counts_perm. }
  split.
  - unfold index. by rewrite Hp'.
  - intros k n. by rewrite Hp'.
Qed.

Lemma descending_sorted (l : list nat) :
  descending l → StronglySorted (λ a b, (b ≤ a)%nat) l.
Proof.
  induction l as [|a l IH]; intros H; constructor.
  - apply IH. intros i j x y Hij Hi Hj. by apply (H (S i) (S j) x y); [lia | |].
  - apply Forall_forall. intros b Hb. apply list_elem_of_lookup in Hb as [j Hj].
    by apply (H 0%nat (S j) a b); [lia | |].
Qed.

(** The counts are the same in every arrangement. *)
Lemma arrangement_sizes c arr arr' :
  arrangement c arr → arrangement c arr' → values arr = values arr'.
Proof.
  intros [Hp Hs] [Hp' Hs'].
  apply (StronglySorted_unique_strong (λ a b : nat, (b ≤ a)%nat)).
  - intros x y _ _ Hxy Hyx. lia.
  - by apply descending_sorted.
  - by apply descending_sorted.
  - unfold values. by rewrite Hp, Hp'.
Qed.

Lemma country_panel_Ok (top : counts) :
  ∃ p, country_panel top = Ok p ∧
       rect_size <$> barh_rects p = values top ∧
       rect_pos <$> barh_rects p = range (length top) ∧
       barh_yticklabels p = index top ∧
       barh_inverted p = true ∧
       topmost p = barh_rects p !! 0%nat.
Proof.
  assert (length (range (length top)) = length (values top)) as Hlen.
  { unfold values. by rewrite length_range, length_fmap. }
  unfold country_panel. rewrite (bar_aligned _ _ _ Hlen).
  cbn [mbind result_bind]. eexists. split; [reflexivity|].
  cbn [barh_rects barh_yticklabels barh_inverted].
  assert (rect_pos <$> imap (λ i p, mkRect p.1 p.2 (cycle [] i))
                            (zip (range (length top)) (values top))
          = range (length top)) as Hpos.
  { rewrite imap_rect_pos, fst_zip by lia. done. }
  split_and!; [| done | done | done |].
  - rewrite imap_rect_size, snd_zip by lia. done.
  - unfold topmost. cbn [barh_rects barh_inverted].
    assert (Forall (λ x, ∃ i, rect_pos x = CNat i)
              (imap (λ i p, mkRect p.1 p.2 (cycle [] i))
                    (zip (range (length top)) (values top)))) as Hall.
    { apply (Forall_fmap rect_pos (λ x, ∃ i, x = CNat i)).
      rewrite Hpos. apply range_CNat. }
    clear Hpos Hlen. destruct top as [|[k n] top]; [done|].
    unfold range, values in Hall |- *.
    cbn [length seq fmap list_fmap zip zip_with] in Hall |- *.
    rewrite imap_cons in Hall |- *. cbn [fst snd Z.of_nat] in Hall |- *.
    apply Forall_cons_1 in Hall as [_ Hall].
    cbn [lookup list_lookup]. f_equal. by apply topmost_first.
Qed.

(** Every arrangement gives a panel that shows the ten most frequent
    values. *)
Lemma arrangement_shown c arr :
  arrangement c arr →
  ∃ p, country_panel (head 10 arr) = Ok p ∧ shows_top_ten c p.
Proof.
  intros Harr. pose proof Harr as [Hperm Hdesc].
  destruct (country_panel_Ok (head 10 arr))
    as (p & Hp & Hsize & Hpos & Hlab & Hinv & Htop).
  exists p. split; [done|].
  assert (length (barh_rects p) = length (head 10 arr)) as Hn.
  { rewrite <- (length_fmap rect_size), Hsize. unfold values.
    by rewrite length_fmap. }
  assert (∀ i k r, barh_yticklabels p !! i = Some k →
                   barh_rects p !! i = Some r →
                   arr !! i = Some (k, rect_size r) ∧ (i < 10)%nat) as Hrow.
  { intros i k r Hk Hr. rewrite Hlab in Hk.
    assert ((rect_size <$> barh_rects p) !! i = Some (rect_size r)) as Hs
      by (by rewrite list_lookup_fmap, Hr).
    rewrite Hsize in Hs. unfold index, values, head in Hk, Hs.
    rewrite list_lookup_fmap in Hk. rewrite list_lookup_fmap in Hs.
    destruct (take 10 arr !! i) as [[k' n']|] eqn:Hi; [|done].
    simpl in Hk, Hs. injection Hk as ->. injection Hs as ->.
    by apply lookup_take_Some in Hi. }
  unfold shows_top_ten. split_and!.
  - rewrite Hn. unfold head. rewrite length_take. lia.
  - rewrite Hlab, Hn. unfold index. by rewrite length_fmap.
  - by rewrite Hpos, Hn.
  - done.
  - rewrite Hsize. unfold head. rewrite values_take. by apply descending_take.
  - done.
  - intros Hd. destruct (arrangement_spec c arr Hd Harr) as [Hnd Hspec].
    assert (∀ k, k ∈ present c →
                 k ∈ barh_yticklabels p ∨
                 (length (barh_rects p) = 10%nat ∧
                  ∀ r, r ∈ barh_rects p →
                       (occurrences k (present c) ≤ rect_size r)%nat)) as Hall.
    { intros k Hk.
      assert ((k, occurrences k (present c)) ∈ arr) as Hin by (by apply Hspec).
      apply list_elem_of_lookup in Hin as [j Hj].
      destruct (decide (j < 10)%nat) as [Hlt|Hge].
      - left. rewrite Hlab. unfold index, head. apply list_elem_of_fmap.
        exists (k, occurrences k (present c)). split; [done|].
        apply elem_of_take. eauto.
      - right. split.
        + rewrite Hn. unfold head. rewrite length_take.
          apply lookup_lt_Some in Hj. lia.
        + intros r Hr. apply list_elem_of_lookup in Hr as [i Hi].
          assert (is_Some (barh_yticklabels p !! i)) as [k' Hk'].
          { apply lookup_lt_is_Some. rewrite Hlab. unfold index.
            rewrite length_fmap, <- Hn. by eapply lookup_lt_Some. }
          destruct (Hrow i k' r Hk' Hi) as [Hai Hi10].
          apply (Hdesc i j (rect_size r) (occurrences k (present c)));
            [lia | |]; unfold values; rewrite list_lookup_fmap.
          * by rewrite Hai.
          * by rewrite Hj. }
    split_and!.
    + rewrite Hlab. unfold index, head in *. rewrite fmap_take.
      rewrite <- (take_drop 10 arr.*1) in Hnd.
      by apply list.NoDup_app in Hnd as [Hnd _].
    + intros i k r Hk Hr. destruct (Hrow i k r Hk Hr) as [Hai _].
      by apply list_elem_of_lookup_2, Hspec in Hai.
    + exact Hall.
    + intros Hne. destruct (present c) as [|k0 ks] eqn:Epresent; [done|].
      rewrite <- Epresent in *.
      assert (k0 ∈ present c) as Hk0 by (rewrite Epresent; left).
      assert (∃ r, barh_rects p !! 0%nat = Some r) as [r Hr].
      { apply lookup_lt_is_Some. destruct (Hall k0 Hk0) as [Hin | [-> _]]; [|lia].
        apply list_elem_of_lookup in Hin as [i Hi].
        apply lookup_lt_Some in Hi.
        rewrite Hlab in Hi. unfold index in Hi. rewrite length_fmap in Hi. lia. }
      exists r. split; [by rewrite Htop|].
      intros k Hk.
      assert (is_Some (barh_yticklabels p !! 0%nat)) as [k' Hk'].
      { apply lookup_lt_is_Some. rewrite Hlab. unfold index.
        rewrite length_fmap, <- Hn. by eapply lookup_lt_Some. }
      destruct (Hrow 0%nat k' r Hk' Hr) as [Ha0 _].
      assert ((k, occurrences k (present c)) ∈ arr) as Hin by (by apply Hspec).
      apply list_elem_of_lookup in Hin as [j Hj].
      apply (Hdesc 0%nat j (rect_size r) (occurrences k (present c)));
        [lia | |]; unfold values; rewrite list_lookup_fmap.
      * by rewrite Ha0.
      * by rewrite Hj.
Qed.

(** C5. The top-countries panel is drawn from the first ten counts of the
    countries.  In whatever order equal counts come, the counts are the same
    and the panel shows the ten most frequent countries: at most ten bars,
    sizes that never go up, the first bar on top of the inverted axis; and
    for a country column of strings each bar is as long as the number of
    rows of its country, a country that is not listed has no more rows than
    any listed one, and no country has more rows than the one on top. *)
Theorem top_countries_panel (df : DataFrame) (c : column) :
  data df !! "country" = Some c →
  arrangement c (value_counts c) ∧
  panel7 df = country_panel (head 10 (value_counts c)) ∧
  ∀ arr, arrangement c arr →
         values arr = values (value_counts c) ∧
         ∃ p, country_panel (head 10 arr) = Ok p ∧ shows_top_ten c p.
Proof.
  intros Hc. split_and!.
  - apply arrangement_value_counts.
  - unfold panel7, top_countries, getitem. by rewrite Hc.
  - intros arr Harr. split.
    + apply (arrangement_sizes c); [done | apply arrangement_value_counts].
    + by apply arrangement_shown.
Qed.

Lemma top_countries_panel_witness :
  let c := ObjCol (Some <$> ["AT"; "BE"; "CH"; "BE"; "DE"; "ES"; "FR"; "GB"; "HU";
                             "IT"; "JP"; "KR"; "JP"]) in
  arrangement c (value_counts c) ∧
  panel7 atlas = country_panel (head 10 (value_counts c)) ∧
  ∀ arr, arrangement c arr →
         values arr = values (value_counts c) ∧
         ∃ p, country_panel (head 10 arr) = Ok p ∧ shows_top_ten c p.
Proof.
  apply (top_countries_panel atlas). vm_compute. reflexivity.
Defined.

(** ** The sizes of the wedges *)

(** C7. When both normal rows and rows in panic mode occur, the panic-mode
    pie is drawn with two wedges, one for each category; the size of a
    wedge, which the plotting library computes in float32, is the count of
    the rows of its category over the number of rows up to 2^-21, and the two
    sizes add up to one whole (100 %) up to 2^-22. *)
Theorem pie_fractions_total (df0 df : DataFrame) (pm : list Z) :
  wf df0 →
  derive_panic_mode df0 = Ok df →
  data df !! "panic_mode" = Some (IntCol pm) →
  0 ∈ pm → 1 ∈ pm →
  length pm = index_len df0 ∧
  ∃ p w1 w2 z1 z2,
    panel2 df = Ok p ∧
    pie_wedges p = [w1; w2] ∧
    (z1 = 0 ∧ z2 = 1 ∨ z1 = 1 ∧ z2 = 0) ∧
    within (Q2Qc (1 # 2097152)) (wedge_frac w1) (share z1 pm) ∧
    within (Q2Qc (1 # 2097152)) (wedge_frac w2) (share z2 pm) ∧
    within (Q2Qc (1 # 4194304)) (sum_Qc (wedge_frac <$> pie_wedges p)) 1.
Proof.
  intros Hwf Hderive Hpm H0 H1.
  destruct (panic_counts_derived _ _ Hwf Hderive) as (pm' & Hpm' & Hlen & Hpc).
  assert (pm' = pm) as -> by congruence. split; [done|].
  destruct (derived_column _ _ Hderive) as (_ & pm' & Hpm'' & Hbits).
  assert (pm' = pm) as -> by congruence.
  destruct (value_counts_two pm Hbits H0 H1)
    as (k1 & n1 & k2 & n2 & Hvc & Hsum & _ & Hk).
  destruct (value_counts_spec (IntCol pm) I) as [_ Hspec].
  rewrite present_int in Hspec.
  assert (∀ z n, z ∈ pm → (CInt z, n) ∈ value_counts (IntCol pm) →
                 n = length (filter (λ x, x = z) pm) ∧ (0 < n)%nat) as Hcount.
  { intros z n Hz Hin. apply Hspec in Hin as [_ ->].
    rewrite occurrences_int. split; [done|].
    assert (z ∈ filter (λ x, x = z) pm) as Hf by (by apply list_elem_of_filter).
    destruct (filter _ pm); [by apply elem_of_nil in Hf | simpl; lia]. }
  assert (∃ z1 z2, (z1 = 0 ∧ z2 = 1 ∨ z1 = 1 ∧ z2 = 0) ∧
                   k1 = CInt z1 ∧ k2 = CInt z2 ∧ z1 ∈ pm ∧ z2 ∈ pm)
    as (z1 & z2 & Hz & -> & -> & Hz1 & Hz2).
  { destruct Hk as [[-> ->] | [-> ->]]; [exists 0, 1 | exists 1, 0]; auto 10. }
  destruct (Hcount z1 n1 Hz1) as [Hn1 Hp1]; [rewrite Hvc; left|].
  destruct (Hcount z2 n2 Hz2) as [Hn2 Hp2]; [rewrite Hvc; right; left|].
  destruct (pie_fracs_two n1 n2 Hp1 Hp2) as (f1 & f2 & Hf & Hone & Hw1 & Hw2).
  injection Hf as <- <-.
  eexists _, _, _, z1, z2. split_and!.
  - rewrite (panel2_counts _ _ Hpc), Hvc. cbn [values fmap list_fmap snd].
    rewrite pie_two. reflexivity.
  - reflexivity.
  - done.
  - unfold share. by rewrite <- Hn1, <- Hsum.
  - unfold share. by rewrite <- Hn2, <- Hsum.
  - exact Hone.
Qed.

Lemma pie_fractions_total_witness :
  length [0; 1; 0] = index_len mostly_normal ∧
  ∃ p w1 w2 z1 z2,
    panel2 (setitem mostly_normal "panic_mode" (IntCol [0; 1; 0])) = Ok p ∧
    pie_wedges p = [w1; w2] ∧
    (z1 = 0 ∧ z2 = 1 ∨ z1 = 1 ∧ z2 = 0) ∧
    within (Q2Qc (1 # 2097152)) (wedge_frac w1) (share z1 [0; 1; 0]) ∧
    within (Q2Qc (1 # 2097152)) (wedge_frac w2) (share z2 [0; 1; 0]) ∧
    within (Q2Qc (1 # 4194304)) (sum_Qc (wedge_frac <$> pie_wedges p)) 1.
Proof.
  apply (pie_fractions_total mostly_normal).
  - exact mostly_normal_wf.
  - exact mostly_normal_derived.
  - vm_compute. reflexivity.
  - left.
  - right. left.
Defined.

(** C7 as stated asks for wedges on every table that is not empty.  On a
    table of two normal rows the pie gets one count for its two labels and
    raises: there is no wedge.  (And rounding is at work where there are
    wedges: of three rows with one in panic mode, the sizes are 11184811 /
    2^24 and 11184811 / 2^25, which add up to 1 + 2^-25.) *)
Lemma pie_fractions_missing :
  (wf all_normal ∧
   index_len all_normal = 2%nat ∧
   derive_panic_mode all_normal
   = Ok (setitem all_normal "panic_mode" (IntCol [0; 0])) ∧
   panic_counts (setitem all_normal "panic_mode" (IntCol [0; 0]))
   = Ok [(CInt 0, 2%nat)] ∧
   panel2 (setitem all_normal "panic_mode" (IntCol [0; 0])) = Raise ValueError) ∧
  (derive_panic_mode mostly_normal
   = Ok (setitem mostly_normal "panic_mode" (IntCol [0; 1; 0])) ∧
   ∃ p, panel2 (setitem mostly_normal "panic_mode" (IntCol [0; 1; 0])) = Ok p ∧
        this <$> (wedge_frac <$> pie_wedges p)
        = [11184811 # 16777216; 11184811 # 33554432]%Q ∧
        this (sum_Qc (wedge_frac <$> pie_wedges p)) = (33554433 # 33554432)%Q).
Proof.
  split; split_and!.
  - apply wfb_wf. vm_compute. reflexivity.
  - reflexivity.
  - exact all_normal_derived.
  - vm_compute. reflexivity.
  - vm_compute. reflexivity.
  - exact mostly_normal_derived.
  - eexists. split_and!; vm_compute; reflexivity.
Qed.

(** ** The box plot of the outside pressures *)

(** X14. The box plot of the three outside pressures is drawn exactly when
    the three columns are in the table and hold numbers; it then has one box
    for each column, in the order of [external_vars], with its label and its
    colour.  Otherwise the panel raises: a KeyError for a column that is not
    in the table, a TypeError when the three are there and one of them holds
    strings or booleans. *)
Theorem pressure_panel_outcome (df : DataFrame) :
  ((∃ p, panel5 df = Ok p)
   ↔ Forall (λ k, ∃ c, data df !! k = Some c ∧ numeric c = true) external_vars) ∧
  (∀ p, panel5 df = Ok p →
        ∃ c1 c2 c3,
          data df !! "public_anxiety_index" = Some c1 ∧
          data df !! "social_media_rumour_index" = Some c2 ∧
          data df !! "regulator_scrutiny_score" = Some c3 ∧
          p = [("Public Anxiety", c1, "#3498db");
               ("Social Media Rumors", c2, "#9b59b6");
               ("Regulatory Scrutiny", c3, "#e67e22")]) ∧
  (∀ e, panel5 df = Raise e →
        (∃ k, k ∈ external_vars ∧ data df !! k = None ∧ e = KeyError k) ∨
        (e = TypeError ∧
         Forall (λ k, is_Some (data df !! k)) external_vars ∧
         Exists (λ k, ∃ c, data df !! k = Some c ∧ numeric c = false)
                external_vars)).
Proof.
  unfold panel5, external_vars, getitem, boxplot. cbn [mapM].
  destruct (data df !! "public_anxiety_index") as [c1|] eqn:E1;
    cbn [mbind result_bind mret result_ret];
    [|split_and!;
      [split; [intros [p Hp]; discriminate
              | intros H; apply Forall_cons_1 in H as [(c & Hc & _) _]; congruence]
      | intros p Hp; discriminate
      | intros e [= <-]; left; eexists; split_and!;
        [left | exact E1 | reflexivity]]].
  destruct (data df !! "social_media_rumour_index") as [c2|] eqn:E2;
    cbn [mbind result_bind mret result_ret];
    [|split_and!;
      [split; [intros [p Hp]; discriminate
              | intros H; apply Forall_cons_1 in H as [_ H];
                apply Forall_cons_1 in H as [(c & Hc & _) _]; congruence]
      | intros p Hp; discriminate
      | intros e [= <-]; left; eexists; split_and!;
        [right; left | exact E2 | reflexivity]]].
  destruct (data df !! "regulator_scrutiny_score") as [c3|] eqn:E3;
    cbn [mbind result_bind mret result_ret];
    [|split_and!;
      [split; [intros [p Hp]; discriminate
              | intros H; apply Forall_cons_1 in H as [_ H];
                apply Forall_cons_1 in H as [_ H];
                apply Forall_cons_1 in H as [(c & Hc & _) _]; congruence]
      | intros p Hp; discriminate
      | intros e [= <-]; left; eexists; split_and!;
        [right; right; left | exact E3 | reflexivity]]].
  cbn [length forallb]. destruct (decide _) as [_|Hn]; [|done].
  destruct (numeric c1) eqn:N1, (numeric c2) eqn:N2, (numeric c3) eqn:N3;
    cbn [andb mbind result_bind zip zip_with];
    (split_and!;
     [split;
      [intros [p Hp]; first [discriminate | repeat (constructor; [eauto|]); constructor]
      | intros H; first [by eauto |
          apply Forall_cons_1 in H as [(d1 & Hd1 & M1) H];
          apply Forall_cons_1 in H as [(d2 & Hd2 & M2) H];
          apply Forall_cons_1 in H as [(d3 & Hd3 & M3) _]; congruence]]
     | intros p Hp; first [discriminate | injection Hp as <-; eauto 10]
     | intros e He; first [discriminate | injection He as <-; right; split_and!;
         [done | repeat (constructor; [eauto|]); constructor |]]]).
  all: first [ apply Exists_cons_hd; by eauto
             | apply Exists_cons_tl, Exists_cons_hd; by eauto
             | apply Exists_cons_tl, Exists_cons_tl, Exists_cons_hd; by eauto ].
Qed.
